(** * exponent-server-sdk-golang: the publish pipeline and its receipts

    A shallow embedding of the Go package [expo] of
    oliveroneill/exponent-server-sdk-golang.  The repository holds several
    historical variants of [push_client.go]; each one is embedded in a
    module of its own, next to the data model they share:
    - [MultiRecipient]: several recipients per message, access token,
      receipts counted against the recipients (part_001, lines 1-172);
    - [MultiRecipientURL]: several recipients per message, URL override,
      a status error of its own for 401 and 403 (part_001, lines 173-352);
    - [SingleToken]: one token per message (sdk/push_client.go);
    - [FirstClient]: the first version (part_002);
    - [Store]: the client of [MultiRecipient] once more, over a store of
      backing arrays and maps, to follow what a call writes.

    Conventions.
    - A Go slice or map that may be [nil] is an [option]: [None] is the nil
      slice, [Some []] the empty non-nil slice (what [encoding/json] builds
      from the JSON array [[]]).  A slice that the code only ranges over or
      measures with [len] is a plain [list]: [nil] and the empty slice behave
      alike there.
    - [len] and the counters added up from it are [nat]: they are lengths of
      slices held in memory and stay far below 2^63.  Other [int] and
      [int64] fields are [Z].
    - Go functions returning [(value, error)] return a [Res]; a run-time
      panic is an outcome of its own.
    - The standard library calls ([json.Marshal], [http.NewRequest], the
      JSON decoder) are taken from a [Runtime] record; the pluggable HTTP
      client is a field of the push client.  Every such call is recorded in
      a log, so that "no network call was made" is a statement about the
      log.

    The file has the embedding first, then the vocabulary of the
    specification and sample data, then lemmas, then the properties
    C1 to C10, then further properties of the code, X1 to X18. *)

From Stdlib Require Import DecimalString.
From stdpp Require Import base option list gmap strings.

Open Scope string_scope.
Open Scope list_scope.

(** ** Formatting verbs of [fmt] *)

(** [%d] applied to an [int]. *)
Definition fmt_d (z : Z) : string := NilZero.string_of_int (Z.to_int z).

(** [%s] applied to an [int]: [fmt] reports the wrong verb in-line. *)
Definition fmt_s_int (z : Z) : string := "%!s(int=" +:+ fmt_d z +:+ ")".

(** ** Tokens (part_000, line 10) *)

Abbreviation ExponentPushToken := string (only parsing).


(** ** The data model (part_000, lines 54-96 and 171-176) *)

Module PushMessage.
Record t (T : Type) : Type := mk {
  To : T;
  Body : string;
  Data : option (gmap string string);
  Sound : string;
  Title : string;
  TTLSeconds : Z;
  Expiration : Z;
  Priority : string;
  Badge : Z;
  ChannelID : string }.
Arguments mk {T} _ _ _ _ _ _ _ _ _ _.
Arguments To {T} _.
Arguments Body {T} _.
Arguments Data {T} _.
Arguments Sound {T} _.
Arguments Title {T} _.
Arguments TTLSeconds {T} _.
Arguments Expiration {T} _.
Arguments Priority {T} _.
Arguments Badge {T} _.
Arguments ChannelID {T} _.

(** [m.To = to] on a struct value. *)
Definition set_To {T U : Type} (m : t T) (to : U) : t U :=
  mk to (Body m) (Data m) (Sound m) (Title m) (TTLSeconds m)
     (Expiration m) (Priority m) (Badge m) (ChannelID m).
End PushMessage.

Module PushResponse.
Record t (T : Type) : Type := mk {
  PushMessage : PushMessage.t T;
  Status : string;
  Message : string;
  Details : option (gmap string string) }.
Arguments mk {T} _ _ _ _.
Arguments PushMessage {T} _.
Arguments Status {T} _.
Arguments Message {T} _.
Arguments Details {T} _.

(** [r.PushMessage = m] on a struct value. *)
Definition set_PushMessage {T : Type} (r : t T) (m : PushMessage.t T) : t T :=
  mk m (Status r) (Message r) (Details r).
End PushResponse.

Module Response.
Record t (T : Type) : Type := mk {
  Data : option (list (PushResponse.t T));
  Errors : option (list (gmap string string)) }.
Arguments mk {T} _ _.
Arguments Data {T} _.
Arguments Errors {T} _.
End Response.

(** ** What [net/http] exchanges *)

Module http.
Record Request : Type := mkRequest {
  Method : string;
  URL : string;
  Header : list (string * string);
  ReqBody : string }.

Record Response : Type := mkResponse {
  StatusCode : Z;
  Status : string;
  Body : string }.

(** [req.Header.Add(key, value)]. *)
Definition Header_Add (req : Request) (key value : string) : Request :=
  mkRequest (Method req) (URL req) (Header req ++ [(key, value)]) (ReqBody req).
End http.

(** ** Errors *)

Module PushServerError.
Record t (T : Type) : Type := mk {
  Message : string;
  Response : http.Response;
  ResponseData : Response.t T;
  Errors : option (list (gmap string string)) }.
Arguments mk {T} _ _ _ _.
Arguments Message {T} _.
Arguments Response {T} _.
Arguments ResponseData {T} _.
Arguments Errors {T} _.
End PushServerError.

(** The dynamic types an [error] returned by the package can have:
    [*errors.errorString] (from [errors.New] and from [fmt.Errorf] without
    [%w]), an error of [encoding/json], an error of [net/http], and the
    package's own [*PushServerError]. *)
Inductive error (T : Type) : Type :=
| errorString (s : string)
| jsonError (s : string)
| httpError (s : string)
| pushServerError (e : PushServerError.t T).
Arguments errorString {T} _.
Arguments jsonError {T} _.
Arguments httpError {T} _.
Arguments pushServerError {T} _.

Definition errors_New {T : Type} (s : string) : error T := errorString s.

(** [ErrMalformedToken] (part_000, line 13). *)
Definition ErrMalformedToken {T : Type} : error T :=
  errors_New "Token should start with ExponentPushToken".

(** [NewExponentPushToken] (part_000, lines 16-21): the token and the
    error it returns, [None] for a nil error. *)
Definition NewExponentPushToken {T : Type} (token : string)
    : ExponentPushToken * option (error T) :=
  if negb (String.prefix "ExponentPushToken" token)
  then ("", Some ErrMalformedToken)
  else (token, None).

(** [NewPushServerError] (part_000, lines 179-188). *)
Definition NewPushServerError {T : Type} (message : string)
    (response : http.Response) (responseData : Response.t T)
    (errors : option (list (gmap string string))) : error T :=
  pushServerError (PushServerError.mk message response responseData errors).

(** [(e *PushServerError) Error()] and the [Error()] of the other kinds. *)
Definition Error {T : Type} (e : error T) : string :=
  match e with
  | errorString s | jsonError s | httpError s => s
  | pushServerError p => PushServerError.Message p
  end.

(** ** Validating a receipt (part_000, lines 73-160) *)

Definition SuccessStatus : string := "ok".
Definition ErrorDeviceNotRegistered : string := "DeviceNotRegistered".
Definition ErrorMessageTooBig : string := "MessageTooBig".
Definition ErrorMessageRateExceeded : string := "MessageRateExceeded".

(** [PushResponseError] (lines 133-135): [Response] is a pointer, [None]
    when nil.  The pointer is followed: the error holds the receipt it
    points to. *)
Module PushResponseError.
Record t (T : Type) : Type := mk {
  Response : option (PushResponse.t T) }.
Arguments mk {T} _.
Arguments Response {T} _.

(** [(e *PushResponseError) Error()] (lines 137-142). *)
Definition Error {T : Type} (e : t T) : string :=
  match Response e with
  | Some r => PushResponse.Message r
  | None => "Unknown push response error"
  end.
End PushResponseError.

(** The dynamic types of the errors [ValidateResponse] returns: the base
    [*PushResponseError] and the three types that embed it (lines
    146-160). *)
Inductive ResponseError (T : Type) : Type :=
| pushResponseError (e : PushResponseError.t T)
| DeviceNotRegisteredError (e : PushResponseError.t T)
| MessageTooBigError (e : PushResponseError.t T)
| MessageRateExceededError (e : PushResponseError.t T).
Arguments pushResponseError {T} _.
Arguments DeviceNotRegisteredError {T} _.
Arguments MessageTooBigError {T} _.
Arguments MessageRateExceededError {T} _.

(** The embedded [PushResponseError] of an error. *)
Definition embedded {T : Type} (e : ResponseError T) : PushResponseError.t T :=
  match e with
  | pushResponseError e | DeviceNotRegisteredError e
  | MessageTooBigError e | MessageRateExceededError e => e
  end.

(** [Error()], promoted from the embedded struct. *)
Definition ResponseError_Error {T : Type} (e : ResponseError T) : string :=
  PushResponseError.Error (embedded e).

(** [m[key]] on a [map[string]string]: the zero value when the key is
    missing. *)
Definition map_index (m : gmap string string) (key : string) : string :=
  default "" (m !! key).

(** [isSuccess] (lines 98-100). *)
Definition isSuccess {T : Type} (r : PushResponse.t T) : bool :=
  bool_decide (PushResponse.Status r = SuccessStatus).

(** [ValidateResponse] (lines 105-130): [None] for a nil error. *)
Definition ValidateResponse {T : Type} (r : PushResponse.t T)
    : option (ResponseError T) :=
  if isSuccess r then None
  else
    let err := PushResponseError.mk (Some r) in
    match PushResponse.Details r with
    | Some details =>
        let e := map_index details "error" in
        if decide (e = ErrorDeviceNotRegistered)
        then Some (DeviceNotRegisteredError err)
        else if decide (e = ErrorMessageTooBig)
        then Some (MessageTooBigError err)
        else if decide (e = ErrorMessageRateExceeded)
        then Some (MessageRateExceededError err)
        else Some (pushResponseError err)
    | None => Some (pushResponseError err)
    end.

(** ** Defaults of the clients (push_client.go, lines 11-16 in every
       variant) *)

Definition DefaultHost : string := "https://exp.host".
Definition DefaultBaseAPIURL : string := "/--/api/v2".

(** ** Outcomes and the logging monad *)

Inductive panic : Type :=
| NilDereference
| IndexOutOfRange.

Inductive Res (T A : Type) : Type :=
| Ok (a : A)
| Err (e : error T)
| Panic (p : panic).
Arguments Ok {T A} _.
Arguments Err {T A} _.
Arguments Panic {T A} _.

(** The calls that leave the package. *)
Inductive Event (T : Type) : Type :=
| EvMarshal (messages : list (PushMessage.t T))
| EvNewRequest (method url : string)
| EvRoundTrip (req : http.Request)
| EvDecode (body : string).
Arguments EvMarshal {T} _.
Arguments EvNewRequest {T} _ _.
Arguments EvRoundTrip {T} _.
Arguments EvDecode {T} _.

(** A computation: the log of the calls made, and how it ended. *)
Definition M (T A : Type) : Type := list (Event T) * Res T A.

Definition log {T A : Type} (m : M T A) : list (Event T) := m.1.
Definition result {T A : Type} (m : M T A) : Res T A := m.2.

#[global] Instance M_ret {T : Type} : MRet (M T) := λ A a, ([], Ok a).

#[global] Instance M_bind {T : Type} : MBind (M T) := λ A B f m,
  match m with
  | (l, Ok a) => let '(l', r) := f a in (l ++ l', r)
  | (l, Err e) => (l, Err e)
  | (l, Panic p) => (l, Panic p)
  end.

(** [return nil, err]. *)
Definition fail {T A : Type} (e : error T) : M T A := ([], Err e).

Definition crash {T A : Type} (p : panic) : M T A := ([], Panic p).

Definition emit {T : Type} (ev : Event T) : M T () := ([ev], Ok ()).

Definition lift {T A : Type} (r : Res T A) : M T A := ([], r).

(** The standard library, as far as the package calls it.  Each function
    is a function of its arguments; failures carry the library's text. *)
Record Runtime (T : Type) : Type := mkRuntime {
  json_Marshal : list (PushMessage.t T) → string + string;
  url_Parse : string → option string;
  json_Decode : string → string + option (Response.t T) }.
Arguments mkRuntime {T} _ _ _.
Arguments json_Marshal {T} _ _.
Arguments url_Parse {T} _ _.
Arguments json_Decode {T} _ _.

(** An [*http.Client]: what its transport answers to a request. *)
Definition Client : Type := http.Request → string + http.Response.

Section Calls.
Context {T : Type} (rt : Runtime T).

(** [json.Marshal(messages)]. *)
Definition Marshal (messages : list (PushMessage.t T)) : M T string :=
  _ ← emit (EvMarshal messages);
  match json_Marshal rt messages with
  | inl e => fail (jsonError e)
  | inr bytes => mret bytes
  end.

(** [http.NewRequest(method, url, body)]: fails when the URL does not parse. *)
Definition NewRequest (method url body : string) : M T http.Request :=
  _ ← emit (EvNewRequest method url);
  match url_Parse rt url with
  | Some e => fail (httpError e)
  | None => mret (http.mkRequest method url [] body)
  end.

(** [client.Do(req)]. *)
Definition Do (client : Client) (req : http.Request) : M T http.Response :=
  _ ← emit (EvRoundTrip req);
  match client req with
  | inl e => fail (httpError e)
  | inr resp => mret resp
  end.

(** [client.Post(url, contentType, body)]: [net/http] builds the request,
    sets the content type and calls [Do]. *)
Definition Post (client : Client) (url contentType body : string)
    : M T http.Response :=
  req ← NewRequest "POST" url body;
  Do client (http.mkRequest (http.Method req) (http.URL req)
               [("Content-Type", contentType)] (http.ReqBody req)).

(** [var r *Response; err = decoder.Decode(&r)]: the JSON text [null]
    leaves [r] nil without an error. *)
Definition Decode (body : string) : M T (option (Response.t T)) :=
  _ ← emit (EvDecode body);
  match json_Decode rt body with
  | inl e => fail (jsonError e)
  | inr r => mret r
  end.

(** Reading a field through [r]: a nil pointer panics. *)
Definition deref (r : option (Response.t T)) : M T (Response.t T) :=
  match r with
  | None => crash NilDereference
  | Some r => mret r
  end.

End Calls.

(** Indexing: [l[i] = f(l[i])] panics when [i] is out of range. *)
Definition update_at {T A : Type} (l : list A) (i : nat) (f : A → A)
    : M T (list A) :=
  match l !! i with
  | Some x => mret (<[i := f x]> l)
  | None => crash IndexOutOfRange
  end.

(** [l[i]] panics when [i] is out of range. *)
Definition index {T A : Type} (l : list A) (i : nat) : M T A :=
  match l !! i with
  | Some x => mret x
  | None => crash IndexOutOfRange
  end.

(** ** The client with several recipients per message and a receipt count
       (part_001, lines 1-172) *)

Module MultiRecipient.

(** [To []ExponentPushToken]. *)
Abbreviation Recipients := (list ExponentPushToken) (only parsing).

Abbreviation PushMessage := (PushMessage.t Recipients) (only parsing).
Abbreviation PushResponse := (PushResponse.t Recipients) (only parsing).

(** [httpClient] is a non-nil [*http.Client], given by what its [Do]
    answers; the zero [PushClient], whose client is nil, is not a value of
    this type. *)
Record PushClient : Type := mkPushClient {
  host : string;
  apiURL : string;
  accessToken : string;
  httpClient : Client }.

(** Lines 96-100, the loop over one message's recipients: the error it
    returns with, if any. *)
Fixpoint validate_recipients (to : Recipients) : option (error Recipients) :=
  match to with
  | [] => None
  | recipient :: to' =>
      if decide (recipient = "") then Some (errors_New "Invalid push token")
      else validate_recipients to'
  end.

(** Lines 88-103, the validation loop, from the value [expectedReceipts]
    has when the loop reaches [messages]. *)
Fixpoint validate (messages : list PushMessage) (expectedReceipts : nat)
    : Res Recipients nat :=
  match messages with
  | [] => Ok expectedReceipts
  | message :: messages' =>
      if decide (length (PushMessage.To message) = 0)
      then Err (errors_New "No recipients")
      else match validate_recipients (PushMessage.To message) with
           | Some e => Err e
           | None =>
               validate messages'
                 (expectedReceipts + length (PushMessage.To message))
           end
  end.

(** Lines 167-172. *)
Definition checkStatus (resp : http.Response) : option (error Recipients) :=
  if bool_decide (200 ≤ http.StatusCode resp)%Z
     && bool_decide (http.StatusCode resp ≤ 299)%Z
  then None
  else Some (errorString
               ("Invalid response (" +:+ fmt_d (http.StatusCode resp) +:+ " "
                +:+ http.Status resp +:+ ")")).

(** Lines 158-162, the loop over one message's recipients, writing into
    [r.Data] from index [i] on. *)
Fixpoint annotate_recipients (msg : PushMessage) (to : Recipients)
    (data : list PushResponse) (i : nat)
    : M Recipients (list PushResponse * nat) :=
  match to with
  | [] => mret (data, i)
  | to1 :: to' =>
      data ← update_at data i (λ d, PushResponse.set_PushMessage d msg);
      data ← update_at data i (λ d,
        PushResponse.set_PushMessage d
          (PushMessage.set_To (PushResponse.PushMessage d) [to1]));
      annotate_recipients msg to' data (i + 1)
  end.

(** Lines 156-163. *)
Fixpoint annotate (messages : list PushMessage) (data : list PushResponse)
    (i : nat) : M Recipients (list PushResponse) :=
  match messages with
  | [] => mret data
  | msg :: messages' =>
      '(data, i) ← annotate_recipients msg (PushMessage.To msg) data i;
      annotate messages' data i
  end.

Section Publish.
Context (rt : Runtime Recipients).

(** Lines 87-165. *)
Definition publishInternal (c : PushClient) (messages : list PushMessage)
    : M Recipients (list PushResponse) :=
  expectedReceipts ← lift (validate messages 0);
  let url := host c +:+ apiURL c +:+ "/push/send" in
  jsonBytes ← Marshal rt messages;
  req ← NewRequest rt "POST" url jsonBytes;
  let req := http.Header_Add req "Content-Type" "application/json" in
  let req :=
    if decide (accessToken c ≠ "")
    then http.Header_Add req "Authorization" ("Bearer " +:+ accessToken c)
    else req in
  resp ← Do (httpClient c) req;
  match checkStatus resp with
  | Some err => fail err
  | None =>
      r ← Decode rt (http.Body resp);
      r ← deref r;
      match Response.Errors r with
      | Some errs =>
          fail (NewPushServerError "Invalid server response" resp r
                  (Response.Errors r))
      | None =>
          match Response.Data r with
          | None =>
              fail (NewPushServerError "Invalid server response" resp r None)
          | Some data =>
              if decide (expectedReceipts ≠ length data)
              then
                let message :=
                  "Mismatched response length. Expected "
                  +:+ fmt_d (Z.of_nat (length messages))
                  +:+ " receipts but only received "
                  +:+ fmt_d (Z.of_nat (length data)) in
                fail (NewPushServerError message resp r None)
              else annotate messages data 0
          end
      end
  end.

(** Lines 83-85. *)
Definition PublishMultiple (c : PushClient) (messages : list PushMessage)
    : M Recipients (list PushResponse) :=
  publishInternal c messages.

(** Lines 71-77. *)
Definition Publish (c : PushClient) (message : PushMessage)
    : M Recipients (list PushResponse) :=
  PublishMultiple c [message].

End Publish.

(** [ClientConfig] (lines 31-36); a nil [HTTPClient] is [None]. *)
Record ClientConfig : Type := mkClientConfig {
  Host : string;
  APIURL : string;
  AccessToken : string;
  HTTPClient : option Client }.

(** [NewPushClient] (lines 40-65), given the value of the package variable
    [DefaultHTTPClient]; a nil [config] is [None]. *)
Definition NewPushClient (DefaultHTTPClient : Client)
    (config : option ClientConfig) : PushClient :=
  let host0 := DefaultHost in
  let apiURL0 := DefaultBaseAPIURL in
  let httpClient0 := DefaultHTTPClient in
  let accessToken0 := "" in
  match config with
  | Some config =>
      let host0 := if decide (Host config ≠ "") then Host config else host0 in
      let apiURL0 :=
        if decide (APIURL config ≠ "") then APIURL config else apiURL0 in
      let accessToken0 :=
        if decide (AccessToken config ≠ "") then AccessToken config
        else accessToken0 in
      let httpClient0 :=
        match HTTPClient config with
        | Some client => client
        | None => httpClient0
        end in
      mkPushClient host0 apiURL0 accessToken0 httpClient0
  | None => mkPushClient host0 apiURL0 accessToken0 httpClient0
  end.

End MultiRecipient.

(** ** The client with a URL override and an access-token status
       (part_001, lines 173-352) *)

Module MultiRecipientURL.

Abbreviation Recipients := (list ExponentPushToken) (only parsing).

Abbreviation PushMessage := (PushMessage.t Recipients) (only parsing).
Abbreviation PushResponse := (PushResponse.t Recipients) (only parsing).

(** [httpClient] is a non-nil [*http.Client], given by what its [Do]
    answers; the zero [PushClient], whose client is nil, is not a value of
    this type. *)
Record PushClient : Type := mkPushClient {
  host : string;
  apiURL : string;
  accessToken : string;
  httpClient : Client;
  url : string }.

(** Lines 273-277. *)
Fixpoint validate_recipients (to : Recipients) : option (error Recipients) :=
  match to with
  | [] => None
  | recipient :: to' =>
      if decide (recipient = "") then Some (errors_New "Invalid push token")
      else validate_recipients to'
  end.

(** Lines 269-278: the error the loop returns with, if any. *)
Fixpoint validate (messages : list PushMessage) : option (error Recipients) :=
  match messages with
  | [] => None
  | message :: messages' =>
      if decide (length (PushMessage.To message) = 0)
      then Some (errors_New "No recipients")
      else match validate_recipients (PushMessage.To message) with
           | Some e => Some e
           | None => validate messages'
           end
  end.

(** Lines 342-352.  The second format applies [%s] to the [int]
    [StatusCode]. *)
Definition checkStatus (resp : http.Response) : option (error Recipients) :=
  if bool_decide (200 ≤ http.StatusCode resp)%Z
     && bool_decide (http.StatusCode resp ≤ 299)%Z
  then None
  else if bool_decide (http.StatusCode resp = 401)%Z
          || bool_decide (http.StatusCode resp = 403)%Z
  then Some (errorString
               ("invalid access token " +:+ fmt_s_int (http.StatusCode resp)))
  else Some (errorString ("invalid response " +:+ http.Status resp)).

(** Lines 336-338: [for i := range r.Data], over the indices [idx] left. *)
Fixpoint annotate (messages : list PushMessage) (data : list PushResponse)
    (idx : list nat) : M Recipients (list PushResponse) :=
  match idx with
  | [] => mret data
  | i :: idx' =>
      message ← index messages i;
      data ← update_at data i (λ d, PushResponse.set_PushMessage d message);
      annotate messages data idx'
  end.

Section Publish.
Context (rt : Runtime Recipients).

(** Lines 267-340. *)
Definition publishInternal (c : PushClient) (messages : list PushMessage)
    : M Recipients (list PushResponse) :=
  match validate messages with
  | Some err => fail err
  | None =>
      let url0 := host c +:+ apiURL c +:+ "/push/send" in
      let url0 := if decide (url c ≠ "") then url c else url0 in
      jsonBytes ← Marshal rt messages;
      req ← NewRequest rt "POST" url0 jsonBytes;
      let req := http.Header_Add req "Content-Type" "application/json" in
      let req :=
        if decide (accessToken c ≠ "")
        then http.Header_Add req "Authorization" ("Bearer " +:+ accessToken c)
        else req in
      resp ← Do (httpClient c) req;
      match checkStatus resp with
      | Some err => fail err
      | None =>
          r ← Decode rt (http.Body resp);
          r ← deref r;
          match Response.Errors r with
          | Some errs =>
              fail (NewPushServerError "Invalid server response" resp r
                      (Response.Errors r))
          | None =>
              match Response.Data r with
              | None =>
                  fail (NewPushServerError "Invalid server response" resp r
                          None)
              | Some data =>
                  if decide (length messages ≠ length data)
                  then
                    let message :=
                      "Mismatched response length. Expected "
                      +:+ fmt_d (Z.of_nat (length messages))
                      +:+ " receipts but only received "
                      +:+ fmt_d (Z.of_nat (length data)) in
                    fail (NewPushServerError message resp r None)
                  else annotate messages data (seq 0 (length data))
              end
          end
      end
  end.

(** Lines 263-265. *)
Definition PublishMultiple (c : PushClient) (messages : list PushMessage)
    : M Recipients (list PushResponse) :=
  publishInternal c messages.

(** Lines 251-257. *)
Definition Publish (c : PushClient) (message : PushMessage)
    : M Recipients PushResponse :=
  responses ← PublishMultiple c [message];
  index responses 0.

End Publish.

(** [ClientConfig] (lines 204-210); a nil [HTTPClient] is [None]. *)
Record ClientConfig : Type := mkClientConfig {
  Host : string;
  APIURL : string;
  AccessToken : string;
  HTTPClient : option Client;
  URL : string }.

(** [NewPushClient] (lines 214-245), given the value of the package
    variable [DefaultHTTPClient]; a nil [config] is [None]. *)
Definition NewPushClient (DefaultHTTPClient : Client)
    (config : option ClientConfig) : PushClient :=
  let host0 := DefaultHost in
  let apiURL0 := DefaultBaseAPIURL in
  let httpClient0 := DefaultHTTPClient in
  let accessToken0 := "" in
  let url0 := "" in
  match config with
  | Some config =>
      let host0 := if decide (Host config ≠ "") then Host config else host0 in
      let apiURL0 :=
        if decide (APIURL config ≠ "") then APIURL config else apiURL0 in
      let accessToken0 :=
        if decide (AccessToken config ≠ "") then AccessToken config
        else accessToken0 in
      let httpClient0 :=
        match HTTPClient config with
        | Some client => client
        | None => httpClient0
        end in
      let url0 := if decide (URL config ≠ "") then URL config else url0 in
      mkPushClient host0 apiURL0 accessToken0 httpClient0 url0
  | None => mkPushClient host0 apiURL0 accessToken0 httpClient0 url0
  end.

End MultiRecipientURL.
(** ** The client with one token per message (sdk/push_client.go) *)

Module SingleToken.

(** [To ExponentPushToken] (part_000, line 55). *)
Abbreviation PushMessage := (PushMessage.t ExponentPushToken) (only parsing).
Abbreviation PushResponse := (PushResponse.t ExponentPushToken) (only parsing).

Record PushClient : Type := mkPushClient {
  host : string;
  apiURL : string;
  httpClient : Client }.

(** Lines 80-84: the error the loop returns with, if any. *)
Fixpoint validate (messages : list PushMessage)
    : option (error ExponentPushToken) :=
  match messages with
  | [] => None
  | message :: messages' =>
      if decide (PushMessage.To message = "")
      then Some (errors_New "Invalid push token")
      else validate messages'
  end.

(** Lines 128-133. *)
Definition checkStatus (resp : http.Response)
    : option (error ExponentPushToken) :=
  if bool_decide (200 ≤ http.StatusCode resp)%Z
     && bool_decide (http.StatusCode resp ≤ 299)%Z
  then None
  else Some (errorString
               ("Invalid response (" +:+ fmt_d (http.StatusCode resp) +:+ " "
                +:+ http.Status resp +:+ ")")).

(** Lines 122-124: [for i := range r.Data], over the indices [idx] left. *)
Fixpoint annotate (messages : list PushMessage) (data : list PushResponse)
    (idx : list nat) : M ExponentPushToken (list PushResponse) :=
  match idx with
  | [] => mret data
  | i :: idx' =>
      message ← index messages i;
      data ← update_at data i (λ d, PushResponse.set_PushMessage d message);
      annotate messages data idx'
  end.

Section Publish.
Context (rt : Runtime ExponentPushToken).

(** Lines 78-126. *)
Definition publishInternal (c : PushClient) (messages : list PushMessage)
    : M ExponentPushToken (list PushResponse) :=
  match validate messages with
  | Some err => fail err
  | None =>
      let url := host c +:+ apiURL c +:+ "/push/send" in
      jsonBytes ← Marshal rt messages;
      resp ← Post rt (httpClient c) url "application/json" jsonBytes;
      match checkStatus resp with
      | Some err => fail err
      | None =>
          r ← Decode rt (http.Body resp);
          r ← deref r;
          match Response.Errors r with
          | Some errs =>
              fail (NewPushServerError "Invalid server response" resp r
                      (Response.Errors r))
          | None =>
              match Response.Data r with
              | None =>
                  fail (NewPushServerError "Invalid server response" resp r
                          None)
              | Some data =>
                  if decide (length messages ≠ length data)
                  then
                    let message :=
                      "Mismatched response length. Expected "
                      +:+ fmt_d (Z.of_nat (length messages))
                      +:+ " receipts but only received "
                      +:+ fmt_d (Z.of_nat (length data)) in
                    fail (NewPushServerError message resp r None)
                  else annotate messages data (seq 0 (length data))
              end
          end
      end
  end.

(** Lines 74-76. *)
Definition PublishMultiple (c : PushClient) (messages : list PushMessage)
    : M ExponentPushToken (list PushResponse) :=
  publishInternal c messages.

(** Lines 62-68. *)
Definition Publish (c : PushClient) (message : PushMessage)
    : M ExponentPushToken PushResponse :=
  responses ← PublishMultiple c [message];
  index responses 0.

End Publish.

(** [ClientConfig] (lines 30-34); a nil [HTTPClient] is [None]. *)
Record ClientConfig : Type := mkClientConfig {
  Host : string;
  APIURL : string;
  HTTPClient : option Client }.

(** [NewPushClient] (lines 38-56), given the value of the package variable
    [DefaultHTTPClient]; a nil [config] is [None]. *)
Definition NewPushClient (DefaultHTTPClient : Client)
    (config : option ClientConfig) : PushClient :=
  let host0 := DefaultHost in
  let apiURL0 := DefaultBaseAPIURL in
  let httpClient0 := DefaultHTTPClient in
  let host0 :=
    match config with
    | Some config => if decide (Host config ≠ "") then Host config else host0
    | None => host0
    end in
  let apiURL0 :=
    match config with
    | Some config =>
        if decide (APIURL config ≠ "") then APIURL config else apiURL0
    | None => apiURL0
    end in
  let httpClient0 :=
    match config with
    | Some config =>
        match HTTPClient config with
        | Some client => client
        | None => httpClient0
        end
    | None => httpClient0
    end in
  mkPushClient host0 apiURL0 httpClient0.

End SingleToken.
(** ** The first client, posting through the default HTTP client
       (part_002) *)

Module FirstClient.

Abbreviation PushMessage := (PushMessage.t ExponentPushToken) (only parsing).
Abbreviation PushResponse := (PushResponse.t ExponentPushToken) (only parsing).

Record PushClient : Type := mkPushClient {
  host : string;
  apiURL : string }.

(** Lines 71-75: the error the loop returns with, if any. *)
Fixpoint validate (messages : list PushMessage)
    : option (error ExponentPushToken) :=
  match messages with
  | [] => None
  | message :: messages' =>
      if decide (PushMessage.To message = "")
      then Some (errors_New "Invalid push token")
      else validate messages'
  end.

(** Lines 122-127. *)
Definition checkStatus (resp : http.Response)
    : option (error ExponentPushToken) :=
  if bool_decide (200 ≤ http.StatusCode resp)%Z
     && bool_decide (http.StatusCode resp ≤ 299)%Z
  then None
  else Some (errorString
               ("Invalid response (" +:+ fmt_d (http.StatusCode resp) +:+ " "
                +:+ http.Status resp +:+ ")")).

(** Lines 116-118: [for i, receipt := range r.Data].  [receipt] is the
    loop's own copy of [r.Data[i]]; the assignment changes the copy. *)
Fixpoint annotate (messages : list PushMessage) (data : list PushResponse)
    (idx : list nat) : M ExponentPushToken (list PushResponse) :=
  match idx with
  | [] => mret data
  | i :: idx' =>
      receipt ← index data i;
      message ← index messages i;
      let receipt := PushResponse.set_PushMessage receipt message in
      annotate messages data idx'
  end.

Section Publish.
Context (rt : Runtime ExponentPushToken).
(** [http.DefaultClient], and [ioutil.ReadAll] on a response body. *)
Context (DefaultClient : Client) (ioutil_ReadAll : string → string + string).

(** Lines 69-120. *)
Definition publishInternal (c : PushClient) (messages : list PushMessage)
    : M ExponentPushToken (list PushResponse) :=
  match validate messages with
  | Some err => fail err
  | None =>
      let url := host c +:+ apiURL c +:+ "/push/send" in
      jsonBytes ← Marshal rt messages;
      resp ← Post rt DefaultClient url "application/json" jsonBytes;
      match checkStatus resp with
      | Some err => fail err
      | None =>
          match ioutil_ReadAll (http.Body resp) with
          | inl err => fail (httpError err)
          | inr body =>
              r ← Decode rt body;
              r ← deref r;
              match Response.Errors r with
              | Some errs =>
                  fail (NewPushServerError "Invalid server response" resp r
                          (Response.Errors r))
              | None =>
                  match Response.Data r with
                  | None =>
                      fail (NewPushServerError "Invalid server response"
                              resp r None)
                  | Some data =>
                      if decide (length messages ≠ length data)
                      then
                        let message :=
                          "Mismatched response length. Expected "
                          +:+ fmt_d (Z.of_nat (length messages))
                          +:+ " receipts but only received "
                          +:+ fmt_d (Z.of_nat (length data)) in
                        fail (NewPushServerError message resp r None)
                      else annotate messages data (seq 0 (length data))
                  end
              end
          end
      end
  end.

(** Lines 65-67. *)
Definition PublishMultiple (c : PushClient) (messages : list PushMessage)
    : M ExponentPushToken (list PushResponse) :=
  publishInternal c messages.

(** Lines 53-59. *)
Definition Publish (c : PushClient) (message : PushMessage)
    : M ExponentPushToken PushResponse :=
  responses ← PublishMultiple c [message];
  index responses 0.

End Publish.

(** [ClientConfig] (lines 27-30). *)
Record ClientConfig : Type := mkClientConfig {
  config_host : string;
  config_apiURL : string }.

(** [NewPushClient] (lines 34-47); a nil [config] is [None]. *)
Definition NewPushClient (config : option ClientConfig) : PushClient :=
  let host0 := DefaultHost in
  let apiURL0 := DefaultBaseAPIURL in
  let host0 :=
    match config with
    | Some config =>
        if decide (config_host config ≠ "") then config_host config
        else host0
    | None => host0
    end in
  let apiURL0 :=
    match config with
    | Some config =>
        if decide (config_apiURL config ≠ "") then config_apiURL config
        else apiURL0
    | None => apiURL0
    end in
  mkPushClient host0 apiURL0.

End FirstClient.
(** ** The multi-recipient client over a store

    [MultiRecipient] computes with values.  Go's slices and maps are
    references: a [[]PushMessage] is a header pointing into a backing
    array, a struct assignment copies the headers and map pointers in it,
    and [r.Data[i].PushMessage = msg] writes into the backing array of
    [r.Data].  This module runs lines 87-165 of part_001 over a store of
    backing arrays and map objects, to say which objects a call writes. *)

Module Store.

Abbreviation loc := positive (only parsing).

(** A slice header: the backing array, the index of the slice's first
    element in it, and the length.  Nothing in the code appends, so the
    capacity plays no part.  A slice of length 0 stands for [nil]. *)
Record slice : Type := mkSlice {
  array : loc;
  offset : nat;
  len : nat }.

Definition nil_slice : slice := mkSlice 1%positive 0 0.

(** The struct [PushMessage] as it lies in memory: [To] is a slice header
    and [Data] a map pointer. *)
Record Message : Type := mkMessage {
  To : slice;
  Body : string;
  Data : option loc;
  Sound : string;
  Title : string;
  TTLSeconds : Z;
  Expiration : Z;
  Priority : string;
  Badge : Z;
  ChannelID : string }.

(** [m.To = to] on a struct value. *)
Definition set_To (m : Message) (to : slice) : Message :=
  mkMessage to (Body m) (Data m) (Sound m) (Title m) (TTLSeconds m)
    (Expiration m) (Priority m) (Badge m) (ChannelID m).

(** The struct [PushResponse] as it lies in memory. *)
Record Receipt : Type := mkReceipt {
  PushMessage : Message;
  Status : string;
  Message0 : string;
  Details : option loc }.

(** [r.PushMessage = m] on a struct value. *)
Definition set_PushMessage (r : Receipt) (m : Message) : Receipt :=
  mkReceipt m (Status r) (Message0 r) (Details r).

(** What a location of the store holds. *)
Inductive object : Type :=
| Tokens (a : list ExponentPushToken)
| Messages (a : list Message)
| Receipts (a : list Receipt)
| StringMap (m : gmap string string).

Abbreviation heap := (gmap loc object) (only parsing).

(** How a computation over the store ends: as in [Res], or on a reference
    that points nowhere or at an object of another type, which no Go
    program can build. *)
Inductive SRes (A : Type) : Type :=
| SOk (a : A)
| SErr (e : error (list ExponentPushToken))
| SPanic (p : panic)
| SFault.
Arguments SOk {A} _.
Arguments SErr {A} _.
Arguments SPanic {A} _.
Arguments SFault {A}.

(** A computation over the store: from a store to the store it leaves, the
    log of its calls, and how it ended. *)
Definition MS (A : Type) : Type :=
  heap → heap * list (Event (list ExponentPushToken)) * SRes A.

Definition heap_of {A : Type}
    (x : heap * list (Event (list ExponentPushToken)) * SRes A) : heap :=
  x.1.1.
Definition log_of {A : Type}
    (x : heap * list (Event (list ExponentPushToken)) * SRes A)
    : list (Event (list ExponentPushToken)) :=
  x.1.2.
Definition res_of {A : Type}
    (x : heap * list (Event (list ExponentPushToken)) * SRes A) : SRes A :=
  x.2.

#[global] Instance MS_ret : MRet MS := λ A a h, (h, [], SOk a).

#[global] Instance MS_bind : MBind MS := λ A B f m h,
  match m h with
  | (h1, l1, SOk a) => let '(h2, l2, r) := f a h1 in (h2, l1 ++ l2, r)
  | (h1, l1, SErr e) => (h1, l1, SErr e)
  | (h1, l1, SPanic p) => (h1, l1, SPanic p)
  | (h1, l1, SFault) => (h1, l1, SFault)
  end.

Definition fault {A : Type} : MS A := λ h, (h, [], SFault).

(** A computation of [M], which does not touch the store. *)
Definition pure {A : Type} (m : M (list ExponentPushToken) A) : MS A := λ h,
  match m with
  | (l, Ok a) => (h, l, SOk a)
  | (l, Err e) => (h, l, SErr e)
  | (l, Panic p) => (h, l, SPanic p)
  end.

(** *** Reading and writing the store *)

(** The elements of a slice, when it lies within an array of the store. *)
Definition window {A : Type} (a : list A) (s : slice) : option (list A) :=
  let w := take (len s) (drop (offset s) a) in
  if decide (length w = len s) then Some w else None.

Definition read_tokens (h : heap) (s : slice)
    : option (list ExponentPushToken) :=
  if decide (len s = 0) then Some []
  else match h !! array s with
       | Some (Tokens a) => window a s
       | _ => None
       end.

Definition read_map (h : heap) (p : option loc)
    : option (option (gmap string string)) :=
  match p with
  | None => Some None
  | Some l => match h !! l with
              | Some (StringMap m) => Some (Some m)
              | _ => None
              end
  end.

(** The value a message in memory stands for. *)
Definition read_message (h : heap) (m : Message)
    : option (PushMessage.t (list ExponentPushToken)) :=
  to ← read_tokens h (To m);
  data ← read_map h (Data m);
  Some (PushMessage.mk to (Body m) data (Sound m) (Title m) (TTLSeconds m)
          (Expiration m) (Priority m) (Badge m) (ChannelID m)).

Definition read_messages (h : heap) (s : slice)
    : option (list (PushMessage.t (list ExponentPushToken))) :=
  if decide (len s = 0) then Some []
  else match h !! array s with
       | Some (Messages a) => w ← window a s; mapM (read_message h) w
       | _ => None
       end.

Definition read_receipt (h : heap) (r : Receipt)
    : option (PushResponse.t (list ExponentPushToken)) :=
  m ← read_message h (PushMessage r);
  details ← read_map h (Details r);
  Some (PushResponse.mk m (Status r) (Message0 r) details).

Definition read_receipts (h : heap) (s : slice)
    : option (list (PushResponse.t (list ExponentPushToken))) :=
  if decide (len s = 0) then Some []
  else match h !! array s with
       | Some (Receipts a) => w ← window a s; mapM (read_receipt h) w
       | _ => None
       end.

(** The batch a slice of messages stands for. *)
Definition snapshot (messages : slice)
    : MS (list (PushMessage.t (list ExponentPushToken))) := λ h,
  match read_messages h messages with
  | Some ms => (h, [], SOk ms)
  | None => (h, [], SFault)
  end.

(** [messages[j]], for [j] within the slice. *)
Definition load_message (messages : slice) (j : nat) : MS Message := λ h,
  match h !! array messages with
  | Some (Messages a) =>
      match a !! (offset messages + j) with
      | Some m => (h, [], SOk m)
      | None => (h, [], SFault)
      end
  | _ => (h, [], SFault)
  end.

(** [to[k]], for [k] within the slice. *)
Definition load_token (to : slice) (k : nat) : MS ExponentPushToken := λ h,
  match h !! array to with
  | Some (Tokens a) =>
      match a !! (offset to + k) with
      | Some t => (h, [], SOk t)
      | None => (h, [], SFault)
      end
  | _ => (h, [], SFault)
  end.

(** [data[i] = f(data[i])]: panics when [i] is not within the slice. *)
Definition store_receipt (data : slice) (i : nat) (f : Receipt → Receipt)
    : MS () := λ h,
  if decide (i < len data) then
    match h !! array data with
    | Some (Receipts a) =>
        match a !! (offset data + i) with
        | Some d =>
            (<[array data := Receipts (<[offset data + i := f d]> a)]> h,
             [], SOk ())
        | None => (h, [], SFault)
        end
    | _ => (h, [], SFault)
    end
  else (h, [], SPanic IndexOutOfRange).

(** A new object, at a location the store does not use yet. *)
Definition alloc (o : object) : MS loc := λ h,
  let l := fresh (dom h) in (<[l := o]> h, [], SOk l).

(** *** What the decoder allocates *)

Definition alloc_tokens (to : list ExponentPushToken) : MS slice :=
  match to with
  | [] => mret nil_slice
  | _ => a ← alloc (Tokens to); mret (mkSlice a 0 (length to))
  end.

Definition alloc_map (m : option (gmap string string)) : MS (option loc) :=
  match m with
  | None => mret None
  | Some m => l ← alloc (StringMap m); mret (Some l)
  end.

Definition alloc_message (m : PushMessage.t (list ExponentPushToken))
    : MS Message :=
  to ← alloc_tokens (PushMessage.To m);
  data ← alloc_map (PushMessage.Data m);
  mret (mkMessage to (PushMessage.Body m) data (PushMessage.Sound m)
          (PushMessage.Title m) (PushMessage.TTLSeconds m)
          (PushMessage.Expiration m) (PushMessage.Priority m)
          (PushMessage.Badge m) (PushMessage.ChannelID m)).

Definition alloc_receipt (r : PushResponse.t (list ExponentPushToken))
    : MS Receipt :=
  m ← alloc_message (PushResponse.PushMessage r);
  details ← alloc_map (PushResponse.Details r);
  mret (mkReceipt m (PushResponse.Status r) (PushResponse.Message r)
          details).

Fixpoint alloc_receipts (rs : list (PushResponse.t (list ExponentPushToken)))
    : MS (list Receipt) :=
  match rs with
  | [] => mret []
  | r :: rs' =>
      r ← alloc_receipt r;
      rs' ← alloc_receipts rs';
      mret (r :: rs')
  end.

(** The slice the decoder builds for [r.Data]: new objects throughout. *)
Definition alloc_data (data : option (list (PushResponse.t (list ExponentPushToken))))
    : MS (option slice) :=
  match data with
  | None => mret None
  | Some rs =>
      rs' ← alloc_receipts rs;
      a ← alloc (Receipts rs');
      mret (Some (mkSlice a 0 (length rs')))
  end.

(** *** Lines 155-164 *)

(** Lines 158-162, over the indices [ks] of [msg.To] left.  [msg] is the
    loop variable of line 157, a copy of the element of [messages]. *)
Fixpoint annotate_recipients (msg : Message) (ks : list nat) (data : slice)
    (i : nat) : MS nat :=
  match ks with
  | [] => mret i
  | k :: ks' =>
      to ← load_token (To msg) k;
      _ ← store_receipt data i (λ d, set_PushMessage d msg);
      a ← alloc (Tokens [to]);
      _ ← store_receipt data i (λ d,
        set_PushMessage d (set_To (PushMessage d) (mkSlice a 0 1)));
      annotate_recipients msg ks' data (i + 1)
  end.

(** Lines 156-163, over the indices [js] of [messages] left. *)
Fixpoint annotate (messages : slice) (js : list nat) (data : slice) (i : nat)
    : MS () :=
  match js with
  | [] => mret ()
  | j :: js' =>
      msg ← load_message messages j;
      i ← annotate_recipients msg (seq 0 (len (To msg))) data i;
      annotate messages js' data i
  end.

Section Publish.
Context (rt : Runtime (list ExponentPushToken)).

(** Lines 87-165.  Up to the decoding of the response the function only
    reads the batch: these steps are the ones of
    [MultiRecipient.publishInternal], on the values the batch stands for.
    The decoder allocates [r.Data]; the loop of lines 155-164 writes. *)
Definition publishInternal (c : MultiRecipient.PushClient) (messages : slice)
    : MS slice :=
  batch ← snapshot messages;
  expectedReceipts ← pure (lift (MultiRecipient.validate batch 0));
  let url := MultiRecipient.host c +:+ MultiRecipient.apiURL c
             +:+ "/push/send" in
  jsonBytes ← pure (Marshal rt batch);
  req ← pure (NewRequest rt "POST" url jsonBytes);
  let req := http.Header_Add req "Content-Type" "application/json" in
  let req :=
    if decide (MultiRecipient.accessToken c ≠ "")
    then http.Header_Add req "Authorization"
           ("Bearer " +:+ MultiRecipient.accessToken c)
    else req in
  resp ← pure (Do (MultiRecipient.httpClient c) req);
  match MultiRecipient.checkStatus resp with
  | Some err => pure (fail err)
  | None =>
      r ← pure (Decode rt (http.Body resp));
      r ← pure (deref r);
      data ← alloc_data (Response.Data r);
      match Response.Errors r with
      | Some errs =>
          pure (fail (NewPushServerError "Invalid server response" resp r
                        (Response.Errors r)))
      | None =>
          match data with
          | Some data =>
              if decide (expectedReceipts ≠ len data)
              then
                let message :=
                  "Mismatched response length. Expected "
                  +:+ fmt_d (Z.of_nat (len messages))
                  +:+ " receipts but only received "
                  +:+ fmt_d (Z.of_nat (len data)) in
                pure (fail (NewPushServerError message resp r None))
              else
                _ ← annotate messages (seq 0 (len messages)) data 0;
                mret data
          | None =>
              pure (fail (NewPushServerError "Invalid server response" resp r
                            None))
          end
      end
  end.

(** Lines 83-85. *)
Definition PublishMultiple (c : MultiRecipient.PushClient) (messages : slice)
    : MS slice :=
  publishInternal c messages.

End Publish.
End Store.
(** * Vocabulary of the specification *)

(** ** The spec's error taxonomy (spec, section 7), read off the values the
       code returns.  The package has no error types of its own besides
       [PushServerError]; the other kinds are told apart by where the error
       comes from and by its text. *)

Inductive Kind : Type :=
| ValidationError
| TransportError
| GatewayStatusError (authentication : bool)
| MalformedResponseError
| GatewayRequestError
| MismatchedCountError
| OtherError.

Definition classify {T : Type} (e : error T) : Kind :=
  match e with
  | errorString s =>
      if decide (s = "No recipients") then ValidationError
      else if decide (s = "Invalid push token") then ValidationError
      else if String.prefix "invalid access token" s
      then GatewayStatusError true
      else if String.prefix "invalid response" s
              || String.prefix "Invalid response" s
      then GatewayStatusError false
      else OtherError
  | jsonError _ => MalformedResponseError
  | httpError _ => TransportError
  | pushServerError p =>
      match PushServerError.Errors p with
      | Some _ => GatewayRequestError
      | None =>
          if String.prefix "Mismatched response length"
               (PushServerError.Message p)
          then MismatchedCountError
          else MalformedResponseError
      end
  end.


Definition is_2xx (resp : http.Response) : Prop :=
  (200 ≤ http.StatusCode resp ≤ 299)%Z.

(** ** Vocabulary of the spec for the multi-recipient client *)

Section MultiRecipientVocabulary.
Import MultiRecipient.

(** Spec, section 4.1: a message passes validation when it has at least one
    recipient and none of its tokens is the empty string. *)
Definition valid_message (m : PushMessage) : Prop :=
  PushMessage.To m ≠ [] ∧ Forall (λ t, t ≠ "") (PushMessage.To m).

Definition valid_batch (messages : list PushMessage) : Prop :=
  Forall valid_message messages.

(** Spec, section 4.1: the sum of the per-message recipient counts. *)
Definition total_recipients (messages : list PushMessage) : nat :=
  sum_list_with (λ m, length (PushMessage.To m)) messages.

(** Spec, section 4.3(5): the message with its recipient list narrowed to
    the one token [t]. *)
Definition narrowed (m : PushMessage) (t : ExponentPushToken) : PushMessage :=
  PushMessage.set_To m [t].

(** Spec, section 3: the flattening of a batch, messages in submission
    order and recipients in their given order within a message; one
    single-recipient message per recipient. *)
Definition flattening (messages : list PushMessage) : list PushMessage :=
  m ← messages; narrowed m <$> PushMessage.To m.

(** Receipt [i] with the [i]-th message of [refs] as its back-reference. *)
Definition back_referenced (receipts : list PushResponse)
    (refs : list PushMessage) : list PushResponse :=
  zip_with PushResponse.set_PushMessage receipts refs.

(** The call reached the gateway, which answered [resp] with a 2xx status
    and a body that parses as the envelope [r]. *)
Definition gateway_replied (rt : Runtime Recipients) (c : PushClient)
    (messages : list PushMessage) (resp : http.Response)
    (r : Response.t Recipients) : Prop :=
  ∃ req, EvRoundTrip req ∈ log (PublishMultiple rt c messages)
         ∧ httpClient c req = inr resp
         ∧ is_2xx resp
         ∧ json_Decode rt (http.Body resp) = inr (Some r).

(** The text of the count error for the counts [expected] and [received]. *)
Definition mismatch_text (expected received : nat) : string :=
  "Mismatched response length. Expected " +:+ fmt_d (Z.of_nat expected)
  +:+ " receipts but only received " +:+ fmt_d (Z.of_nat received).


(** The envelope's request-level error list is non-empty. *)
Definition errors_nonempty (r : Response.t Recipients) : Prop :=
  ∃ e errs, Response.Errors r = Some (e :: errs).

End MultiRecipientVocabulary.

(** [s] starts with [prefix]. *)
Definition starts_with (prefix s : string) : Prop :=
  ∃ rest, s = prefix +:+ rest.

(** ** Vocabulary for the client with the access-token status *)

(** The call reached the gateway, which answered [resp]. *)
Definition gateway_answered (rt : Runtime (list string))
    (c : MultiRecipientURL.PushClient)
    (messages : list (PushMessage.t (list string)))
    (resp : http.Response) : Prop :=
  ∃ req, EvRoundTrip req ∈ log (MultiRecipientURL.PublishMultiple rt c messages)
         ∧ MultiRecipientURL.httpClient c req = inr resp.

(** The body of a response was handed to the JSON decoder. *)
Definition body_parsed {T A : Type} (m : M T A) : Prop :=
  ∃ body, EvDecode body ∈ log m.

(** ** Vocabulary for receipts and requests *)

(** The receipt's details hold the machine code [code] under the key
    "error". *)
Definition has_code {T : Type} (r : PushResponse.t T) (code : string) : Prop :=
  ∃ details, PushResponse.Details r = Some details
             ∧ details !! "error" = Some code.

(** The error [e] with [r] as the receipt it points to. *)
Definition carrying {T : Type} (r : PushResponse.t T) (e : ResponseError T)
    : ResponseError T :=
  let err := PushResponseError.mk (Some r) in
  match e with
  | pushResponseError _ => pushResponseError err
  | DeviceNotRegisteredError _ => DeviceNotRegisteredError err
  | MessageTooBigError _ => MessageTooBigError err
  | MessageRateExceededError _ => MessageRateExceededError err
  end.

(** The round trips of a log. *)
Definition round_trips {T : Type} (l : list (Event T)) : list http.Request :=
  omap (λ ev, match ev with EvRoundTrip req => Some req | _ => None end) l.

(** ** Vocabulary for the store *)

(** The computation leaves the objects at the locations [K] as they are. *)
Definition keeps (K : gset positive) {A : Type} (m : Store.MS A) : Prop :=
  ∀ h, K ⊆ dom h → ∀ l, l ∈ K → Store.heap_of (m h) !! l = h !! l.

(** A run over the store [x] ends as the run over values [y] does: the
    same calls, the same error or panic, and results related by [R] in the
    store that is left; the run over the store meets no bad reference. *)
Definition simulates {A B : Type}
    (x : gmap positive Store.object * list (Event (list string))
         * Store.SRes A)
    (y : M (list string) B)
    (R : gmap positive Store.object → A → B → Prop) : Prop :=
  Store.log_of x = log y
  ∧ match Store.res_of x with
    | Store.SOk a => ∃ b, result y = Ok b ∧ R (Store.heap_of x) a b
    | Store.SErr e => result y = Err e
    | Store.SPanic p => result y = Panic p
    | Store.SFault => False
    end.

(** ** Sample data: a gateway that answers every request the same way *)

Module Sample.

(** A message to the recipients [to], all optional fields unset. *)
Definition message {T : Type} (to : T) (body : string) : PushMessage.t T :=
  PushMessage.mk to body None "" "" 0 0 "" 0 "".

(** A receipt as the decoder builds it from [{"status": .., "message": ..}]:
    the [PushMessage] field is the zero value. *)
Definition receipt (status message0 : string)
    : PushResponse.t (list string) :=
  PushResponse.mk (message [] "") status message0 None.

(** Two messages with recipient counts 2 and 1. *)
Definition batch21 : list (PushMessage.t (list string)) :=
  [message ["ExponentPushToken[a]"; "ExponentPushToken[b]"] "first";
   message ["ExponentPushToken[c]"] "second"].

(** A runtime whose decoder reads the body [wire] as [r] and rejects any
    other body. *)
Definition runtime {T : Type} (wire : string) (r : option (Response.t T))
    : Runtime T :=
  mkRuntime (λ _, inr "[..]") (λ _, None)
    (λ body, if decide (body = wire) then inr r
             else inl "invalid character").

(** A transport that answers [resp] to every request. *)
Definition transport (resp : http.Response) : Client := λ _, inr resp.

Definition ok200 (body : string) : http.Response :=
  http.mkResponse 200 "200 OK" body.

Definition url_client (resp : http.Response)
    : MultiRecipientURL.PushClient :=
  MultiRecipientURL.mkPushClient "https://exp.host" "/--/api/v2" "secret"
    (transport resp) "".

Definition single_client (resp : http.Response) : SingleToken.PushClient :=
  SingleToken.mkPushClient "https://exp.host" "/--/api/v2" (transport resp).

Definition client (resp : http.Response) : MultiRecipient.PushClient :=
  MultiRecipient.mkPushClient "https://exp.host" "/--/api/v2" ""
    (transport resp).

Definition three_receipts : list (PushResponse.t (list string)) :=
  [receipt "ok" ""; receipt "ok" "";
   receipt "error" "not a registered push notification recipient"].

Definition two_receipts : list (PushResponse.t (list string)) :=
  [receipt "ok" ""; receipt "ok" ""].

(** One message to one recipient, and the envelope
    [{"data": [{"status": "ok"}], "errors": []}]. *)
Definition batch1 : list (PushMessage.t (list string)) :=
  [message ["ExponentPushToken[a]"] "only"].

Definition empty_errors : Response.t (list string) :=
  Response.mk (Some [receipt "ok" ""]) (Some []).

(** The envelope [{"errors": []}]: an empty error list and no [data]. *)
Definition only_empty_errors : Response.t (list string) :=
  Response.mk None (Some []).

(** The envelope [{}]: neither [data] nor [errors]. *)
Definition bare : Response.t (list string) := Response.mk None None.

(** The envelope [{"errors": [{"code": "API_ERROR"}]}], without [data]. *)
Definition rejected : Response.t (list string) :=
  Response.mk None (Some [{["code" := "API_ERROR"]}]).

(** [batch21] in a store: the two token arrays, the array of the two
    messages, and the slice over it. *)
Definition message_at (to : Store.slice) (body : string) : Store.Message :=
  Store.mkMessage to body None "" "" 0 0 "" 0 "".

Definition store21 : gmap positive Store.object :=
  {[ 1%positive :=
       Store.Tokens ["ExponentPushToken[a]"; "ExponentPushToken[b]"];
     2%positive := Store.Tokens ["ExponentPushToken[c]"];
     3%positive :=
       Store.Messages
         [message_at (Store.mkSlice 1 0 2) "first";
          message_at (Store.mkSlice 2 0 1) "second"] ]}.

Definition slice21 : Store.slice := Store.mkSlice 3 0 2.

(** A transport that fails on every request. *)
Definition down : Client := λ _, inl "connection refused".

Definition down_client : MultiRecipient.PushClient :=
  MultiRecipient.mkPushClient "https://exp.host" "/--/api/v2" "" down.

(** The client of [client] with an access token. *)
Definition token_client (resp : http.Response) : MultiRecipient.PushClient :=
  MultiRecipient.mkPushClient "https://exp.host" "/--/api/v2" "secret"
    (transport resp).

(** A client whose configuration gave the full URL of the endpoint. *)
Definition override_client (resp : http.Response)
    : MultiRecipientURL.PushClient :=
  MultiRecipientURL.mkPushClient "https://exp.host" "/--/api/v2" ""
    (transport resp) "http://localhost:3000/send".

End Sample.

(** * Lemmas *)

(** ** Running the monad *)

(** Membership of an event in a log that is a list of known events. *)
Ltac log_inv H :=
  repeat (apply elem_of_cons in H as [H|H]; [try discriminate H |]);
  try (by apply elem_of_nil in H);
  try (injection H as H).

Lemma log_bind {T A B : Type} (m : M T A) (f : A → M T B) :
  log (m ≫= f) =
  log m ++ match result m with Ok a => log (f a) | _ => [] end.
Proof.
  destruct m as [l [a|e|p]]; cbn; [by destruct (f a) | |];
    by rewrite app_nil_r.
Qed.

Lemma result_bind {T A B : Type} (m : M T A) (f : A → M T B) :
  result (m ≫= f) =
  match result m with
  | Ok a => result (f a)
  | Err e => Err e
  | Panic p => Panic p
  end.
Proof. destruct m as [l [a|e|p]]; cbn; [by destruct (f a) | done | done]. Qed.

Lemma update_at_Some {T A : Type} (l : list A) (i : nat) (f : A → A) (x : A) :
  l !! i = Some x → update_at (T := T) l i f = ([], Ok (<[i := f x]> l)).
Proof. intros H. unfold update_at. by rewrite H. Qed.

Section CallRuns.
Context {T : Type} (rt : Runtime T).

Lemma Marshal_run (messages : list (PushMessage.t T)) :
  Marshal rt messages
  = ([EvMarshal messages],
     match json_Marshal rt messages with
     | inl e => Err (jsonError e)
     | inr bytes => Ok bytes
     end).
Proof. unfold Marshal. cbn. by destruct (json_Marshal rt messages). Qed.

Lemma NewRequest_run (method url body : string) :
  NewRequest rt method url body
  = ([EvNewRequest method url],
     match url_Parse rt url with
     | Some e => Err (httpError e)
     | None => Ok (http.mkRequest method url [] body)
     end).
Proof. unfold NewRequest. cbn. by destruct (url_Parse rt url). Qed.

Lemma Do_run (client : Client) (req : http.Request) :
  Do (T := T) client req
  = ([EvRoundTrip req],
     match client req with
     | inl e => Err (httpError e)
     | inr resp => Ok resp
     end).
Proof. unfold Do. cbn. by destruct (client req). Qed.

Lemma Decode_run (body : string) :
  Decode rt body
  = ([EvDecode body],
     match json_Decode rt body with
     | inl e => Err (jsonError e)
     | inr r => Ok r
     end).
Proof. unfold Decode. cbn. by destruct (json_Decode rt body). Qed.

End CallRuns.

(** On sample data: the third logged call is a round trip, answered with a
    2xx response whose body the decoder reads as the envelope. *)
Ltac sample_replied :=
  eexists; split;
  [ lazy; do 2 apply list_elem_of_further; apply list_elem_of_here
  | split; [reflexivity | split; [unfold is_2xx; cbn; lia | reflexivity]] ].

(** ** Validation in the multi-recipient client *)

Section MultiRecipientLemmas.
Import MultiRecipient.

Lemma validate_recipients_None (to : Recipients) :
  validate_recipients to = None ↔ Forall (λ t, t ≠ "") to.
Proof.
  induction to as [|t to IH]; cbn.
  - split; [constructor | done].
  - destruct (decide (t = "")) as [->|Hne].
    + split; [done | by inversion 1].
    + rewrite IH. split; [by constructor | by inversion 1].
Qed.

Lemma validate_recipients_Some (to : Recipients) e :
  validate_recipients to = Some e → e = errors_New "Invalid push token".
Proof.
  induction to as [|t to IH]; cbn; [done |].
  destruct (decide (t = "")); [congruence | done].
Qed.

Lemma total_recipients_cons (m : PushMessage) (messages : list PushMessage) :
  total_recipients (m :: messages)
  = length (PushMessage.To m) + total_recipients messages.
Proof. done. Qed.

Lemma validate_valid (messages : list PushMessage) (n : nat) :
  valid_batch messages →
  validate messages n = Ok (n + total_recipients messages).
Proof.
  intros Hv. revert n.
  induction Hv as [|m messages [Hne Htok] _ IH]; intros n; cbn [validate].
  - f_equal. unfold total_recipients. cbn. lia.
  - destruct (decide (length (PushMessage.To m) = 0)) as [H0|_].
    { by apply length_zero_iff_nil in H0. }
    apply validate_recipients_None in Htok.
    rewrite Htok, IH, total_recipients_cons. f_equal. lia.
Qed.

Lemma validate_invalid (messages : list PushMessage) (n : nat) :
  ¬ valid_batch messages →
  ∃ e, validate messages n = Err e
       ∧ (e = errors_New "No recipients" ∨ e = errors_New "Invalid push token").
Proof.
  revert n. induction messages as [|m messages IH]; intros n Hv; cbn.
  - destruct Hv. constructor.
  - destruct (decide (length (PushMessage.To m) = 0)) as [H0|H0]; [eauto |].
    destruct (validate_recipients (PushMessage.To m)) as [e|] eqn:Hr.
    + apply validate_recipients_Some in Hr as ->. eauto.
    + apply IH. intros Hm. apply Hv. constructor; [|done].
      split; [|by apply validate_recipients_None].
      intros Hnil. by rewrite Hnil in H0.
Qed.

#[global] Instance valid_batch_dec messages : Decision (valid_batch messages).
Proof. unfold valid_batch, valid_message. apply _. Defined.

(** ** The annotation loops write the flattening into the receipts *)

Lemma update_at_middle {A : Type} (pre post : list A) (x : A) (f : A → A) :
  update_at (T := Recipients) (pre ++ x :: post) (length pre) f
  = ([], Ok (pre ++ f x :: post)).
Proof.
  rewrite (update_at_Some _ _ _ x) by by apply list_lookup_middle.
  rewrite insert_app_r_alt by done. by rewrite Nat.sub_diag.
Qed.

Lemma annotate_recipients_run (msg : PushMessage) (to : Recipients)
    (pre mid post : list PushResponse) :
  length mid = length to →
  annotate_recipients msg to (pre ++ mid ++ post) (length pre)
  = ([], Ok (pre ++ back_referenced mid (narrowed msg <$> to) ++ post,
             length pre + length to)).
Proof.
  revert pre mid. induction to as [|t to IH]; intros pre [|d mid] Hlen;
    try done.
  - cbn. by rewrite Nat.add_0_r.
  - cbn [annotate_recipients app]. rewrite update_at_middle. cbn [mbind M_bind].
    rewrite update_at_middle. cbn [mbind M_bind fst snd app].
    rewrite (cons_middle _ pre), (assoc_L (++) pre).
    replace (length pre + 1) with (length (pre ++
      [PushResponse.set_PushMessage (PushResponse.set_PushMessage d msg)
         (PushMessage.set_To
            (PushResponse.PushMessage (PushResponse.set_PushMessage d msg))
            [t])]))
      by (rewrite length_app; done).
    rewrite IH by (cbn in Hlen; lia).
    cbn. rewrite length_app. cbn. rewrite <- (assoc_L (++) pre). cbn.
    do 3 f_equal. lia.
Qed.

Lemma length_flattening (messages : list PushMessage) :
  length (flattening messages) = total_recipients messages.
Proof.
  induction messages as [|m messages IH]; [done |].
  rewrite total_recipients_cons, <- IH. unfold flattening.
  by rewrite bind_cons, length_app, length_fmap.
Qed.

Lemma annotate_run (messages : list PushMessage)
    (pre mid post : list PushResponse) :
  length mid = total_recipients messages →
  annotate messages (pre ++ mid ++ post) (length pre)
  = ([], Ok (pre ++ back_referenced mid (flattening messages) ++ post)).
Proof.
  revert pre mid. induction messages as [|m messages IH]; intros pre mid Hlen.
  - destruct mid; [|done]. done.
  - cbn [annotate].
    rewrite <- (take_drop (length (PushMessage.To m)) mid) at 1.
    rewrite <- (assoc_L (++)).
    assert (length (take (length (PushMessage.To m)) mid)
            = length (PushMessage.To m)) as Htake.
    { rewrite length_take. rewrite total_recipients_cons in Hlen. lia. }
    rewrite annotate_recipients_run by done.
    cbn [mbind M_bind fst snd app].
    rewrite (assoc_L (++) pre).
    replace (length pre + length (PushMessage.To m)) with
      (length (pre ++ back_referenced
                 (take (length (PushMessage.To m)) mid)
                 (narrowed m <$> PushMessage.To m))).
    2:{ rewrite length_app. unfold back_referenced.
        rewrite length_zip_with_l_eq; [by rewrite Htake |].
        by rewrite length_fmap. }
    rewrite IH.
    2:{ rewrite length_drop. rewrite total_recipients_cons in Hlen. lia. }
    cbn. rewrite <- (assoc_L (++) pre). do 3 f_equal.
    rewrite (assoc_L (++)). f_equal.
    unfold back_referenced, flattening.
    by rewrite zip_with_app_r, length_fmap.
Qed.

Lemma annotate_all (messages : list PushMessage) (data : list PushResponse) :
  length data = total_recipients messages →
  annotate messages data 0
  = ([], Ok (back_referenced data (flattening messages))).
Proof.
  intros Hlen. pose proof (annotate_run messages [] data [] Hlen) as H.
  cbn in H. by rewrite !app_nil_r in H.
Qed.

(** ** What a call that reached the gateway returns *)

Lemma checkStatus_2xx (resp : http.Response) :
  checkStatus resp = None ↔ is_2xx resp.
Proof.
  unfold checkStatus, is_2xx.
  destruct (bool_decide (200 ≤ http.StatusCode resp)%Z) eqn:H1;
    destruct (bool_decide (http.StatusCode resp ≤ 299)%Z) eqn:H2; cbn;
    try apply bool_decide_eq_true in H1; try apply bool_decide_eq_true in H2;
    try apply bool_decide_eq_false in H1; try apply bool_decide_eq_false in H2;
    split; intros; try done; lia.
Qed.

(** A round trip is in the log only after validation, serialisation and
    the construction of the request went through; the request is the one
    lines 111-120 build. *)
Lemma round_trip_logged (rt : Runtime Recipients) (c : PushClient)
    (messages : list PushMessage) (req : http.Request) :
  EvRoundTrip req ∈ log (PublishMultiple rt c messages) →
  valid_batch messages
  ∧ ∃ bytes,
      json_Marshal rt messages = inr bytes
      ∧ url_Parse rt (host c +:+ apiURL c +:+ "/push/send") = None
      ∧ req =
        let req0 :=
          http.Header_Add
            (http.mkRequest "POST" (host c +:+ apiURL c +:+ "/push/send")
               [] bytes)
            "Content-Type" "application/json" in
        if decide (accessToken c ≠ "")
        then http.Header_Add req0 "Authorization"
               ("Bearer " +:+ accessToken c)
        else req0.
Proof.
  intros Hin. unfold PublishMultiple, publishInternal in Hin.
  destruct (decide (valid_batch messages)) as [Hv|Hv].
  2:{ destruct (validate_invalid messages 0 Hv) as (e & He & _).
      rewrite He in Hin. cbn in Hin. by apply elem_of_nil in Hin. }
  split; [done |]. rewrite validate_valid in Hin by done.
  unfold Marshal, NewRequest, Do, Decode in Hin. cbn in Hin.
  destruct (json_Marshal rt messages) as [e|bytes]; cbn in Hin.
  { by log_inv Hin. }
  destruct (url_Parse rt _) as [e|]; cbn in Hin.
  { by log_inv Hin. }
  exists bytes. do 2 (split; [done |]).
  destruct (httpClient c _) as [e|resp0]; cbn in Hin.
  { by log_inv Hin. }
  destruct (checkStatus resp0); cbn in Hin.
  { by log_inv Hin. }
  destruct (json_Decode rt _) as [e|[r0|]]; cbn in Hin; try by log_inv Hin.
  destruct (Response.Errors r0); cbn in Hin; try by log_inv Hin.
  destruct (Response.Data r0) as [data|]; cbn in Hin; try by log_inv Hin.
  destruct (decide (total_recipients messages ≠ length data)) as [Hne|Heq];
    cbn in Hin; try by log_inv Hin.
  rewrite annotate_all in Hin by (apply dec_stable in Heq; by rewrite <- Heq).
  cbn in Hin. by log_inv Hin.
Qed.

Lemma publishInternal_replied (rt : Runtime Recipients) (c : PushClient)
    (messages : list PushMessage) (resp : http.Response)
    (r : Response.t Recipients) :
  gateway_replied rt c messages resp r →
  valid_batch messages
  ∧ result (PublishMultiple rt c messages) =
    match Response.Errors r with
    | Some _ =>
        Err (NewPushServerError "Invalid server response" resp r
               (Response.Errors r))
    | None =>
        match Response.Data r with
        | None => Err (NewPushServerError "Invalid server response" resp r None)
        | Some data =>
            if decide (total_recipients messages ≠ length data)
            then Err (NewPushServerError
                        (mismatch_text (length messages) (length data))
                        resp r None)
            else Ok (back_referenced data (flattening messages))
        end
    end.
Proof.
  intros (req & Hin & Hreq & H2xx & Hdec).
  apply round_trip_logged in Hin as (Hv & bytes & Hm & Hu & Hr).
  split; [done |]. cbn zeta in Hr.
  unfold PublishMultiple, publishInternal.
  rewrite validate_valid by done.
  unfold Marshal, NewRequest, Do, Decode. cbn.
  rewrite Hm. cbn. rewrite Hu. cbn. rewrite <- Hr, Hreq. cbn.
  apply checkStatus_2xx in H2xx. rewrite H2xx, Hdec. cbn.
  destruct (Response.Errors r); cbn; [done |].
  destruct (Response.Data r) as [data|]; cbn; [|done].
  destruct (decide (total_recipients messages ≠ length data)) as [Hne|Heq];
    cbn; [done |].
  rewrite annotate_all by (apply dec_stable in Heq; by rewrite <- Heq).
  done.
Qed.


End MultiRecipientLemmas.

(** ** The client with the access-token status *)

Section MultiRecipientURLLemmas.
Import MultiRecipientURL.


Lemma url_annotate_log (messages : list PushMessage)
    (data : list PushResponse) (idx : list nat) :
  log (annotate messages data idx) = [].
Proof.
  revert data. induction idx as [|i idx IH]; intros data; [done |].
  cbn [annotate]. rewrite log_bind. unfold index.
  destruct (messages !! i) as [m|]; [|done].
  cbn [log result fst snd app mret M_ret].
  rewrite log_bind. unfold update_at.
  destruct (data !! i) as [d|]; [|done].
  cbn [log result fst snd app mret M_ret].
  apply IH.
Qed.

(** What the call returns once the gateway has answered [resp]: the status
    error, or the decoder's error, or what the rest of the function makes of
    the envelope; and whether the body went to the decoder. *)
Lemma url_answered (rt : Runtime Recipients) (c : PushClient)
    (messages : list PushMessage) (resp : http.Response) :
  gateway_answered rt c messages resp →
  match checkStatus resp with
  | Some e =>
      result (PublishMultiple rt c messages) = Err e
      ∧ ¬ body_parsed (PublishMultiple rt c messages)
  | None =>
      EvDecode (http.Body resp) ∈ log (PublishMultiple rt c messages)
      ∧ ∀ err, json_Decode rt (http.Body resp) = inl err →
               result (PublishMultiple rt c messages) = Err (jsonError err)
  end.
Proof.
  intros (req & Hin & Hreq). revert Hin.
  unfold body_parsed, PublishMultiple, publishInternal.
  destruct (validate messages); [intros Hin; by log_inv Hin |].
  cbn zeta. rewrite Marshal_run.
  destruct (json_Marshal rt messages) as [e|bytes];
    [intros Hin; by log_inv Hin |].
  cbn [mbind M_bind]. rewrite NewRequest_run.
  destruct (url_Parse rt _) as [e|]; [intros Hin; by log_inv Hin |].
  cbn [mbind M_bind]. rewrite Do_run.
  match goal with
  | |- context [httpClient c (if ?b then ?x else ?y)] =>
      generalize (if b then x else y)
  end.
  intros req0. destruct (httpClient c req0) as [e|resp0] eqn:Hc.
  { intros Hin. cbn in Hin. log_inv Hin. congruence. }
  cbn [mbind M_bind].
  destruct (checkStatus resp0) as [e|] eqn:Hs.
  { intros Hin. cbn in Hin. log_inv Hin. rewrite <- Hin in Hc.
    assert (resp0 = resp) as -> by congruence. rewrite Hs. cbn.
    split; [done |]. intros [body Hb]. by log_inv Hb. }
  rewrite Decode_run. intros Hin.
  assert (resp0 = resp) as ->.
  { destruct (json_Decode rt _) as [e|[r|]]; cbn in Hin;
      [log_inv Hin; congruence | | log_inv Hin; congruence].
    destruct (Response.Errors r); cbn in Hin; [log_inv Hin; congruence |].
    destruct (Response.Data r) as [data|]; cbn in Hin;
      [|log_inv Hin; congruence].
    destruct (decide (length messages ≠ length data)); cbn in Hin;
      [log_inv Hin; congruence |].
    destruct (annotate messages data _) as [l res] eqn:Ha.
    pose proof (url_annotate_log messages data (seq 0 (length data))) as Hl.
    rewrite Ha in Hl. cbn in Hl, Hin. subst l. log_inv Hin. congruence. }
  rewrite Hs. split.
  - destruct (json_Decode rt _) as [e|r]; cbn [mbind M_bind];
      [do 3 apply list_elem_of_further; apply list_elem_of_here |].
    match goal with |- context [mbind ?f ?m] => destruct (mbind f m) end.
    cbn. do 3 apply list_elem_of_further. apply list_elem_of_here.
  - intros err Herr. by rewrite Herr.
Qed.

Lemma url_annotate_run (mid : list PushResponse) :
  ∀ (mmid mpre : list PushMessage) (pre : list PushResponse),
    length pre = length mpre → length mid = length mmid →
    annotate (mpre ++ mmid) (pre ++ mid) (seq (length pre) (length mid))
    = ([], Ok (pre ++ zip_with PushResponse.set_PushMessage mid mmid)).
Proof.
  induction mid as [|d mid IH]; intros [|m mmid] mpre pre Hpre Hmid;
    try done.
  cbn [length seq annotate zip_with].
  unfold index. rewrite list_lookup_middle by done.
  cbn [mbind M_bind mret M_ret].
  unfold update_at. rewrite list_lookup_middle by done.
  cbn [mbind M_bind mret M_ret].
  rewrite insert_app_r_alt, Nat.sub_diag by done. cbn [insert list_insert].
  rewrite (cons_middle _ pre), (assoc_L (++) pre).
  rewrite (cons_middle _ mpre), (assoc_L (++) mpre).
  replace (S (length pre)) with
    (length (pre ++ [PushResponse.set_PushMessage d m]))
    by (rewrite length_app; cbn; lia).
  rewrite IH.
  - cbn. by rewrite <- (assoc_L (++) pre).
  - rewrite !length_app. cbn. lia.
  - by injection Hmid.
Qed.

(** The run of a call, stage by stage. *)
Lemma url_run (rt : Runtime Recipients) (c : PushClient)
    (messages : list PushMessage) :
  let url0 :=
    if decide (url c ≠ "") then url c
    else host c +:+ apiURL c +:+ "/push/send" in
  let request bytes :=
    let req0 :=
      http.Header_Add (http.mkRequest "POST" url0 [] bytes)
        "Content-Type" "application/json" in
    if decide (accessToken c ≠ "")
    then http.Header_Add req0 "Authorization" ("Bearer " +:+ accessToken c)
    else req0 in
  PublishMultiple rt c messages =
  match validate messages with
  | Some e => ([], Err e)
  | None =>
      match json_Marshal rt messages with
      | inl e => ([EvMarshal messages], Err (jsonError e))
      | inr bytes =>
          match url_Parse rt url0 with
          | Some e =>
              ([EvMarshal messages; EvNewRequest "POST" url0],
               Err (httpError e))
          | None =>
              match httpClient c (request bytes) with
              | inl e =>
                  ([EvMarshal messages; EvNewRequest "POST" url0;
                    EvRoundTrip (request bytes)], Err (httpError e))
              | inr resp =>
                  match checkStatus resp with
                  | Some e =>
                      ([EvMarshal messages; EvNewRequest "POST" url0;
                        EvRoundTrip (request bytes)], Err e)
                  | None =>
                      ([EvMarshal messages; EvNewRequest "POST" url0;
                        EvRoundTrip (request bytes);
                        EvDecode (http.Body resp)],
                       match json_Decode rt (http.Body resp) with
                       | inl e => Err (jsonError e)
                       | inr None => Panic NilDereference
                       | inr (Some r) =>
                           match Response.Errors r, Response.Data r with
                           | Some errs, _ =>
                               Err (NewPushServerError
                                      "Invalid server response" resp r
                                      (Some errs))
                           | None, None =>
                               Err (NewPushServerError
                                      "Invalid server response" resp r None)
                           | None, Some data =>
                               if decide (length messages ≠ length data)
                               then Err (NewPushServerError
                                           (mismatch_text (length messages)
                                              (length data)) resp r None)
                               else Ok (zip_with PushResponse.set_PushMessage
                                          data messages)
                           end
                       end)
                  end
              end
          end
      end
  end.
Proof.
  cbn zeta. unfold PublishMultiple, publishInternal.
  destruct (validate messages); [done |].
  cbn zeta. rewrite Marshal_run.
  destruct (json_Marshal rt messages) as [e|bytes]; [done |].
  cbn [mbind M_bind]. rewrite NewRequest_run.
  destruct (url_Parse rt _) as [e|]; [done |].
  cbn [mbind M_bind]. rewrite Do_run. cbn [http.Header_Add].
  destruct (httpClient c _) as [e|resp]; [done |].
  cbn [mbind M_bind]. destruct (checkStatus resp); [done |].
  rewrite Decode_run.
  destruct (json_Decode rt _) as [e|[r|]]; [done | |done].
  cbn [mbind M_bind deref mret M_ret].
  destruct (Response.Errors r); [done |].
  destruct (Response.Data r) as [data|]; [|done].
  destruct (decide (length messages ≠ length data)) as [|Heq]; [done |].
  apply dec_stable in Heq.
  pose proof (url_annotate_run data messages [] [] eq_refl
                (eq_sym Heq)) as Hrun.
  cbn in Hrun. by rewrite Hrun.
Qed.

End MultiRecipientURLLemmas.

(** ** The client with one token per message *)

Section SingleTokenLemmas.
Import SingleToken.

Lemma single_annotate_run (mid : list PushResponse) :
  ∀ (mmid mpre : list PushMessage) (pre : list PushResponse),
    length pre = length mpre → length mid = length mmid →
    annotate (mpre ++ mmid) (pre ++ mid) (seq (length pre) (length mid))
    = ([], Ok (pre ++ zip_with PushResponse.set_PushMessage mid mmid)).
Proof.
  induction mid as [|d mid IH]; intros [|m mmid] mpre pre Hpre Hmid;
    try done.
  cbn [length seq annotate zip_with].
  unfold index. rewrite list_lookup_middle by done.
  cbn [mbind M_bind mret M_ret].
  unfold update_at. rewrite list_lookup_middle by done.
  cbn [mbind M_bind mret M_ret].
  rewrite insert_app_r_alt, Nat.sub_diag by done. cbn [insert list_insert].
  rewrite (cons_middle _ pre), (assoc_L (++) pre).
  rewrite (cons_middle _ mpre), (assoc_L (++) mpre).
  replace (S (length pre)) with
    (length (pre ++ [PushResponse.set_PushMessage d m]))
    by (rewrite length_app; cbn; lia).
  rewrite IH.
  - cbn. by rewrite <- (assoc_L (++) pre).
  - rewrite !length_app. cbn. lia.
  - by injection Hmid.
Qed.

(** How a call can end: with receipts that are the decoded ones, one per
    message and in the same order, each referring to its message; with an
    error; or with the nil dereference of a [null] body. *)
Lemma single_outcome (rt : Runtime ExponentPushToken) (c : PushClient)
    (messages : list PushMessage) :
  match result (PublishMultiple rt c messages) with
  | Ok out =>
      ∃ data, length messages = length data
              ∧ out = zip_with PushResponse.set_PushMessage data messages
  | Err _ => True
  | Panic p => p = NilDereference
  end.
Proof.
  unfold PublishMultiple, publishInternal, Post.
  destruct (validate messages); [done |].
  cbn zeta. rewrite Marshal_run.
  destruct (json_Marshal rt messages) as [e|bytes]; [done |].
  cbn [mbind M_bind]. rewrite NewRequest_run.
  destruct (url_Parse rt _) as [e|]; [done |].
  cbn [mbind M_bind]. rewrite Do_run.
  destruct (httpClient c _) as [e|resp]; [done |].
  cbn [mbind M_bind]. destruct (checkStatus resp); [done |].
  rewrite Decode_run.
  destruct (json_Decode rt _) as [e|[r|]]; [done | |done].
  cbn [mbind M_bind deref mret M_ret].
  destruct (Response.Errors r); [done |].
  destruct (Response.Data r) as [data|]; [|done].
  destruct (decide (length messages ≠ length data)) as [|Heq]; [done |].
  apply dec_stable in Heq.
  pose proof (single_annotate_run data messages [] [] eq_refl
                (eq_sym Heq)) as Hrun.
  cbn in Hrun. rewrite Hrun. cbn. eauto.
Qed.

End SingleTokenLemmas.

(** ** The first client *)

(** The loop of part_002, lines 116-118, assigns to its own copy of each
    receipt: when it runs to its end the receipts are as the decoder left
    them, without back-references. *)
Lemma first_annotate_unchanged (messages : list FirstClient.PushMessage)
    (data out : list FirstClient.PushResponse) (idx : list nat) :
  result (FirstClient.annotate messages data idx) = Ok out → out = data.
Proof.
  induction idx as [|i idx IH]; cbn [FirstClient.annotate].
  - by intros [= <-].
  - rewrite result_bind. unfold index.
    destruct (data !! i); [|done]. cbn [result snd mret M_ret].
    rewrite result_bind. destruct (messages !! i); [|done].
    cbn [result snd mret M_ret]. apply IH.
Qed.

(** ** Prefixes *)

Lemma prefix_starts_with (p s : string) :
  String.prefix p s = true ↔ starts_with p s.
Proof.
  unfold starts_with. revert s.
  induction p as [|a p IH]; intros [|b s]; cbn.
  - split; [by exists "" | done].
  - split; [by exists (String b s) | done].
  - split; [done | by intros [? ?]].
  - destruct (Ascii.ascii_dec a b) as [->|Hne].
    + rewrite IH. split; intros [rest Hrest]; exists rest; cbn in *;
        [by rewrite Hrest | by injection Hrest].
    + split; [done |]. intros [rest Hrest]. injection Hrest as Hab _.
      by destruct Hne.
Qed.

(** ** Classifying the status errors *)




(** ** The store: what a call writes *)

Section StoreFrame.
Import Store.

Lemma heap_of_bind {A B : Type} (m : MS A) (f : A → MS B) (h : heap) :
  heap_of ((m ≫= f) h)
  = match res_of (m h) with
    | SOk a => heap_of (f a (heap_of (m h)))
    | _ => heap_of (m h)
    end.
Proof.
  unfold mbind, MS_bind. destruct (m h) as [[h1 l1] [a| | |]]; cbn; try done.
  by destruct (f a h1) as [[h2 l2] r].
Qed.

Lemma res_of_bind {A B : Type} (m : MS A) (f : A → MS B) (h : heap) :
  res_of ((m ≫= f) h)
  = match res_of (m h) with
    | SOk a => res_of (f a (heap_of (m h)))
    | SErr e => SErr e
    | SPanic p => SPanic p
    | SFault => SFault
    end.
Proof.
  unfold mbind, MS_bind. destruct (m h) as [[h1 l1] [a| | |]]; cbn; try done.
  by destruct (f a h1) as [[h2 l2] r].
Qed.

Lemma keeps_dom (K : gset positive) {A : Type} (m : MS A) (h : heap) :
  keeps K m → K ⊆ dom h → K ⊆ dom (heap_of (m h)).
Proof.
  intros Hm HK l Hl. apply elem_of_dom. rewrite (Hm h HK l Hl).
  apply elem_of_dom. by apply HK.
Qed.

Lemma keeps_bind_res (K : gset positive) {A B : Type} (m : MS A)
    (f : A → MS B) :
  keeps K m →
  (∀ h a, K ⊆ dom h → res_of (m h) = SOk a → keeps K (f a)) →
  keeps K (m ≫= f).
Proof.
  intros Hm Hf h HK l Hl. rewrite heap_of_bind.
  destruct (res_of (m h)) as [a| | |] eqn:Hres; try by apply Hm.
  rewrite (Hf h a HK Hres); [by apply Hm | by apply keeps_dom | done].
Qed.

Lemma keeps_bind (K : gset positive) {A B : Type} (m : MS A) (f : A → MS B) :
  keeps K m → (∀ a, keeps K (f a)) → keeps K (m ≫= f).
Proof. intros Hm Hf. apply keeps_bind_res; [done |]. intros; apply Hf. Qed.

Lemma keeps_ret (K : gset positive) {A : Type} (a : A) : keeps K (mret a).
Proof. by intros h HK l Hl. Qed.

Lemma keeps_pure (K : gset positive) {A : Type}
    (m : M (list ExponentPushToken) A) :
  keeps K (pure m).
Proof. intros h HK l Hl. unfold pure. by destruct m as [? [?|?|?]]. Qed.

Lemma keeps_snapshot (K : gset positive) (messages : slice) :
  keeps K (snapshot messages).
Proof.
  intros h HK l Hl. unfold snapshot. by destruct (read_messages h messages).
Qed.

Lemma keeps_load_message (K : gset positive) (messages : slice) (j : nat) :
  keeps K (load_message messages j).
Proof.
  intros h HK l Hl. unfold load_message.
  destruct (h !! array messages) as [[ts|ms|rs|m]|]; try done.
  by destruct (ms !! _).
Qed.

Lemma keeps_load_token (K : gset positive) (to : slice) (k : nat) :
  keeps K (load_token to k).
Proof.
  intros h HK l Hl. unfold load_token.
  destruct (h !! array to) as [[ts|ms|rs|m]|]; try done.
  by destruct (ts !! _).
Qed.

Lemma keeps_alloc (K : gset positive) (o : object) : keeps K (alloc o).
Proof.
  intros h HK l Hl. unfold alloc. cbn. apply lookup_insert_ne.
  intros Heq. subst l. apply HK in Hl. by apply is_fresh in Hl.
Qed.

Lemma keeps_store_receipt (K : gset positive) (data : slice) (i : nat)
    (f : Receipt → Receipt) :
  array data ∉ K → keeps K (store_receipt data i f).
Proof.
  intros Hdata h HK l Hl. unfold store_receipt.
  destruct (decide (i < len data)); [|done].
  destruct (h !! array data) as [[ts|ms|rs|m]|]; try done.
  destruct (rs !! _); [|done]. cbn. apply lookup_insert_ne.
  intros Heq. by subst l.
Qed.

Lemma keeps_annotate_recipients (K : gset positive) (msg : Message)
    (ks : list nat) (data : slice) (i : nat) :
  array data ∉ K → keeps K (annotate_recipients msg ks data i).
Proof.
  intros Hdata. revert i. induction ks as [|k ks IH]; intros i; cbn.
  - apply keeps_ret.
  - apply keeps_bind; [apply keeps_load_token |]. intros to.
    apply keeps_bind; [by apply keeps_store_receipt |]. intros _.
    apply keeps_bind; [apply keeps_alloc |]. intros a.
    apply keeps_bind; [by apply keeps_store_receipt |]. intros _.
    apply IH.
Qed.

Lemma keeps_annotate (K : gset positive) (messages : slice) (js : list nat)
    (data : slice) (i : nat) :
  array data ∉ K → keeps K (annotate messages js data i).
Proof.
  intros Hdata. revert i. induction js as [|j js IH]; intros i; cbn.
  - apply keeps_ret.
  - apply keeps_bind; [apply keeps_load_message |]. intros msg.
    apply keeps_bind; [by apply keeps_annotate_recipients |]. intros i'.
    apply IH.
Qed.

Lemma keeps_alloc_tokens (K : gset positive) (to : list ExponentPushToken) :
  keeps K (alloc_tokens to).
Proof.
  destruct to; [apply keeps_ret |].
  apply keeps_bind; [apply keeps_alloc |]. intros; apply keeps_ret.
Qed.

Lemma keeps_alloc_map (K : gset positive) (m : option (gmap string string)) :
  keeps K (alloc_map m).
Proof.
  destruct m; [|apply keeps_ret].
  apply keeps_bind; [apply keeps_alloc |]. intros; apply keeps_ret.
Qed.

Lemma keeps_alloc_receipts (K : gset positive)
    (rs : list (PushResponse.t (list ExponentPushToken))) :
  keeps K (alloc_receipts rs).
Proof.
  induction rs as [|r rs IH]; cbn; [apply keeps_ret |].
  apply keeps_bind.
  { unfold alloc_receipt, alloc_message.
    repeat (apply keeps_bind; [|intros ?]);
      auto using keeps_alloc_tokens, keeps_alloc_map, keeps_ret. }
  intros r'. apply keeps_bind; [done |]. intros; apply keeps_ret.
Qed.

Lemma keeps_alloc_data (K : gset positive)
    (data : option (list (PushResponse.t (list ExponentPushToken)))) :
  keeps K (alloc_data data).
Proof.
  destruct data as [rs|]; cbn; [|apply keeps_ret].
  apply keeps_bind; [apply keeps_alloc_receipts |]. intros rs'.
  apply keeps_bind; [apply keeps_alloc |]. intros; apply keeps_ret.
Qed.

(** The array of [r.Data] is none of the objects that were there before
    the decoder ran. *)
Lemma alloc_data_fresh (K : gset positive)
    (data : option (list (PushResponse.t (list ExponentPushToken))))
    (h : heap) (s : slice) :
  K ⊆ dom h → res_of (alloc_data data h) = SOk (Some s) → array s ∉ K.
Proof.
  intros HK. destruct data as [rs|]; cbn; [|done].
  rewrite res_of_bind.
  destruct (res_of (alloc_receipts rs h)) as [rs'| | |] eqn:Hrs; try done.
  rewrite res_of_bind. cbn. intros [= <-]. cbn.
  intros Hl. apply (keeps_dom K _ h (keeps_alloc_receipts K rs) HK) in Hl.
  by apply is_fresh in Hl.
Qed.

Lemma keeps_publishInternal (K : gset positive)
    (rt : Runtime (list ExponentPushToken)) (c : MultiRecipient.PushClient)
    (messages : slice) :
  keeps K (publishInternal rt c messages).
Proof.
  unfold publishInternal.
  apply keeps_bind; [apply keeps_snapshot |]. intros batch.
  apply keeps_bind; [apply keeps_pure |]. intros expectedReceipts.
  cbn zeta.
  apply keeps_bind; [apply keeps_pure |]. intros jsonBytes.
  apply keeps_bind; [apply keeps_pure |]. intros req.
  apply keeps_bind; [apply keeps_pure |]. intros resp.
  destruct (MultiRecipient.checkStatus resp); [apply keeps_pure |].
  apply keeps_bind; [apply keeps_pure |]. intros r0.
  apply keeps_bind; [apply keeps_pure |]. intros r.
  apply keeps_bind_res; [apply keeps_alloc_data |]. intros h data HK Hdata.
  destruct (Response.Errors r); [apply keeps_pure |].
  destruct data as [data|]; [|apply keeps_pure].
  destruct (decide (expectedReceipts ≠ len data)); [apply keeps_pure |].
  apply keeps_bind; [|intros; apply keeps_ret].
  apply keeps_annotate. by eapply alloc_data_fresh.
Qed.

End StoreFrame.


(** ** The store: reading back what a call leaves *)

Section StoreRead.
Import Store.

Lemma read_tokens_mono (h h' : heap) (s : slice) to :
  h ⊆ h' → read_tokens h s = Some to → read_tokens h' s = Some to.
Proof.
  intros Hsub. unfold read_tokens. destruct (decide (len s = 0)); [done |].
  destruct (h !! array s) as [o|] eqn:Ho; [|done].
  by rewrite (lookup_weaken _ _ _ _ Ho Hsub).
Qed.

Lemma read_map_mono (h h' : heap) (p : option positive) m :
  h ⊆ h' → read_map h p = Some m → read_map h' p = Some m.
Proof.
  intros Hsub. unfold read_map. destruct p as [l|]; [|done].
  destruct (h !! l) as [o|] eqn:Ho; [|done].
  by rewrite (lookup_weaken _ _ _ _ Ho Hsub).
Qed.

Lemma read_message_mono (h h' : heap) (m : Message) v :
  h ⊆ h' → read_message h m = Some v → read_message h' m = Some v.
Proof.
  intros Hsub. unfold read_message.
  destruct (read_tokens h (To m)) as [to|] eqn:Hto; [|done].
  destruct (read_map h (Data m)) as [data|] eqn:Hdata; [|done].
  by rewrite (read_tokens_mono _ _ _ _ Hsub Hto),
    (read_map_mono _ _ _ _ Hsub Hdata).
Qed.

Lemma read_receipt_mono (h h' : heap) (r : Receipt) v :
  h ⊆ h' → read_receipt h r = Some v → read_receipt h' r = Some v.
Proof.
  intros Hsub. unfold read_receipt.
  destruct (read_message h (PushMessage r)) as [m|] eqn:Hm; [|done].
  destruct (read_map h (Details r)) as [details|] eqn:Hd; [|done].
  by rewrite (read_message_mono _ _ _ _ Hsub Hm),
    (read_map_mono _ _ _ _ Hsub Hd).
Qed.

Lemma read_receipts_mono (h h' : heap) (rs : list Receipt) vs :
  h ⊆ h' →
  Forall2 (λ r v, read_receipt h r = Some v) rs vs →
  Forall2 (λ r v, read_receipt h' r = Some v) rs vs.
Proof.
  intros Hsub Hrs. eapply Forall2_impl; [done |].
  intros r v. by apply read_receipt_mono.
Qed.

Lemma window_lookup {A : Type} (a w : list A) (s : slice) (k : nat) :
  window a s = Some w → k < len s → a !! (offset s + k) = w !! k.
Proof.
  unfold window. destruct (decide _) as [Hlen|]; [|done].
  intros [= <-] Hk. by rewrite lookup_take_lt, lookup_drop.
Qed.

Lemma window_length {A : Type} (a w : list A) (s : slice) :
  window a s = Some w → length w = len s.
Proof.
  unfold window. destruct (decide _) as [Hlen|]; [|done]. by intros [= <-].
Qed.

Lemma window_all {A : Type} (a : list A) (l : positive) :
  window a (mkSlice l 0 (length a)) = Some a.
Proof.
  unfold window. cbn. rewrite firstn_all. by rewrite decide_True.
Qed.

Lemma read_messages_length (h : heap) (s : slice) batch :
  read_messages h s = Some batch → length batch = len s.
Proof.
  unfold read_messages. destruct (decide (len s = 0)) as [->|].
  { by intros [= <-]. }
  destruct (h !! array s) as [[ts|ms|rs|m]|]; try done.
  destruct (window ms s) as [w|] eqn:Hw; [|done]. cbn.
  intros Hm. apply length_mapM in Hm. rewrite <- Hm.
  by eapply window_length.
Qed.

(** *** What the decoder's allocations leave *)

Lemma alloc_run (o : object) (h : heap) :
  alloc o h = (<[fresh (dom h) := o]> h, [], SOk (fresh (dom h)))
  ∧ h !! fresh (dom h) = None.
Proof. split; [done |]. apply not_elem_of_dom, is_fresh. Qed.

Lemma alloc_tokens_run (to : list ExponentPushToken) (h : heap) :
  ∃ h' s, alloc_tokens to h = (h', [], SOk s) ∧ h ⊆ h'
          ∧ read_tokens h' s = Some to.
Proof.
  destruct to as [|t to]; [by exists h, nil_slice |].
  eexists _, _. unfold alloc_tokens. cbn. split; [reflexivity |]. split.
  - apply insert_subseteq, not_elem_of_dom, is_fresh.
  - unfold read_tokens. cbn. rewrite lookup_insert_eq.
    apply (window_all (t :: to)).
Qed.

Lemma alloc_map_run (m : option (gmap string string)) (h : heap) :
  ∃ h' p, alloc_map m h = (h', [], SOk p) ∧ h ⊆ h'
          ∧ read_map h' p = Some m.
Proof.
  destruct m as [m|]; [|by exists h, None].
  eexists _, _. unfold alloc_map. cbn. split; [reflexivity |]. split.
  - apply insert_subseteq, not_elem_of_dom, is_fresh.
  - cbn. by rewrite lookup_insert_eq.
Qed.

Lemma bind_run {A B : Type} (m : MS A) (f : A → MS B) (h h1 : heap) (a : A) :
  m h = (h1, [], SOk a) → (m ≫= f) h = f a h1.
Proof.
  intros Hm. unfold mbind, MS_bind. rewrite Hm.
  by destruct (f a h1) as [[h2 l2] r].
Qed.

Lemma alloc_message_run (m : PushMessage.t (list ExponentPushToken))
    (h : heap) :
  ∃ h' m', alloc_message m h = (h', [], SOk m') ∧ h ⊆ h'
           ∧ read_message h' m' = Some m.
Proof.
  unfold alloc_message.
  destruct (alloc_tokens_run (PushMessage.To m) h) as (h1 & s & Hs & H1 & Hr1).
  destruct (alloc_map_run (PushMessage.Data m) h1)
    as (h2 & p & Hp & H2 & Hr2).
  eexists h2, _. rewrite (bind_run _ _ _ _ _ Hs), (bind_run _ _ _ _ _ Hp).
  split; [reflexivity |]. split; [by etrans |].
  unfold read_message. cbn.
  rewrite (read_tokens_mono _ _ _ _ H2 Hr1), Hr2. cbn. by destruct m.
Qed.

Lemma alloc_receipt_run (r : PushResponse.t (list ExponentPushToken))
    (h : heap) :
  ∃ h' r', alloc_receipt r h = (h', [], SOk r') ∧ h ⊆ h'
           ∧ read_receipt h' r' = Some r.
Proof.
  unfold alloc_receipt.
  destruct (alloc_message_run (PushResponse.PushMessage r) h)
    as (h1 & m & Hm & H1 & Hr1).
  destruct (alloc_map_run (PushResponse.Details r) h1)
    as (h2 & p & Hp & H2 & Hr2).
  eexists h2, _. rewrite (bind_run _ _ _ _ _ Hm), (bind_run _ _ _ _ _ Hp).
  split; [reflexivity |]. split; [by etrans |].
  unfold read_receipt. cbn.
  rewrite (read_message_mono _ _ _ _ H2 Hr1), Hr2. cbn. by destruct r.
Qed.

Lemma alloc_receipts_run (rs : list (PushResponse.t (list ExponentPushToken)))
    (h : heap) :
  ∃ h' rs', alloc_receipts rs h = (h', [], SOk rs') ∧ h ⊆ h'
            ∧ Forall2 (λ r v, read_receipt h' r = Some v) rs' rs.
Proof.
  revert h. induction rs as [|r rs IH]; intros h.
  { exists h, []. by repeat split. }
  destruct (alloc_receipt_run r h) as (h1 & r' & Hr & H1 & Hr1).
  destruct (IH h1) as (h2 & rs' & Hrs & H2 & Hr2).
  exists h2, (r' :: rs'). cbn [alloc_receipts].
  rewrite (bind_run _ _ _ _ _ Hr), (bind_run _ _ _ _ _ Hrs).
  split; [reflexivity |]. split; [by etrans |].
  constructor; [by eapply read_receipt_mono | done].
Qed.

Lemma alloc_data_run (rs : list (PushResponse.t (list ExponentPushToken)))
    (h : heap) :
  ∃ g a rs',
    alloc_data (Some rs) h
    = (<[a := Receipts rs']> g, [], SOk (Some (mkSlice a 0 (length rs))))
    ∧ h ⊆ g ∧ g !! a = None
    ∧ Forall2 (λ r v, read_receipt g r = Some v) rs' rs.
Proof.
  destruct (alloc_receipts_run rs h) as (g & rs' & Hrs & Hsub & Hread).
  exists g, (fresh (dom g)), rs'. unfold alloc_data.
  rewrite (bind_run _ _ _ _ _ Hrs). cbn.
  rewrite (Forall2_length _ _ _ Hread).
  split; [done |]. split; [done |]. split; [|done].
  apply not_elem_of_dom, is_fresh.
Qed.

Lemma read_messages_mono (h h' : heap) (s : slice) batch :
  h ⊆ h' → read_messages h s = Some batch → read_messages h' s = Some batch.
Proof.
  intros Hsub. unfold read_messages. destruct (decide (len s = 0)); [done |].
  destruct (h !! array s) as [o|] eqn:Ho; [|done].
  rewrite (lookup_weaken _ _ _ _ Ho Hsub).
  destruct o as [ts|ms|rs|m]; try done.
  destruct (window ms s) as [w|]; [|done]. cbn. rewrite !mapM_Some.
  intros Hw. eapply Forall2_impl; [done |].
  intros m v. by apply read_message_mono.
Qed.

(** *** The loops of lines 155-164 over the store *)

Lemma store_receipt_run (g : heap) (a : positive) (n : nat)
    (pre post : list Receipt) (d : Receipt) (f : Receipt → Receipt) :
  length pre < n →
  store_receipt (mkSlice a 0 n) (length pre) f
    (<[a := Receipts (pre ++ d :: post)]> g)
  = (<[a := Receipts (pre ++ f d :: post)]> g, [], SOk ()).
Proof.
  intros Hn. unfold store_receipt. cbn. rewrite decide_True by done.
  rewrite lookup_insert_eq, list_lookup_middle by done.
  rewrite insert_insert_eq, insert_app_r_alt, Nat.sub_diag by done.
  done.
Qed.

Lemma load_token_run (h : heap) (s : slice) (k : nat) (toks : list string)
    (t : string) :
  read_tokens h s = Some toks → toks !! k = Some t →
  load_token s k h = (h, [], SOk t).
Proof.
  unfold read_tokens, load_token. intros Hread Hk.
  destruct (decide (len s = 0)); [by injection Hread as <- |].
  destruct (h !! array s) as [[ts|ms|rs|m]|]; try done.
  rewrite (window_lookup _ _ _ k Hread), Hk; [done |].
  rewrite <- (window_length _ _ _ Hread). by eapply lookup_lt_Some.
Qed.

Lemma read_tokens_array (h : heap) (s : slice) (toks : list string) :
  read_tokens h s = Some toks → toks ≠ [] → is_Some (h !! array s).
Proof.
  unfold read_tokens. intros Hread Hne.
  destruct (decide (len s = 0)); [by injection Hread as <- |].
  by destruct (h !! array s).
Qed.

Lemma read_tokens_length (h : heap) (s : slice) (toks : list string) :
  read_tokens h s = Some toks → length toks = len s.
Proof.
  unfold read_tokens. destruct (decide (len s = 0)) as [->|].
  { by intros [= <-]. }
  destruct (h !! array s) as [[ts|ms|rs|m]|]; try done.
  apply window_length.
Qed.

Lemma annotate_recipients_store (a : positive) (n : nat) (msg : Message)
    (msg_v : PushMessage.t (list string)) (trest : list string) :
  ∀ (g : heap) (tdone : list string) (pre mid post : list Receipt)
    (mid_v : list (PushResponse.t (list string))),
    g !! a = None →
    read_message g msg = Some msg_v →
    PushMessage.To msg_v = tdone ++ trest →
    Forall2 (λ d v, read_receipt g d = Some v) mid mid_v →
    length mid = length trest →
    (length pre + length trest ≤ n)%nat →
    ∃ g' mid',
      annotate_recipients msg (seq (length tdone) (length trest))
        (mkSlice a 0 n) (length pre)
        (<[a := Receipts (pre ++ mid ++ post)]> g)
      = (<[a := Receipts (pre ++ mid' ++ post)]> g', [],
         SOk (length pre + length trest))
      ∧ g ⊆ g' ∧ g' !! a = None
      ∧ Forall2 (λ d v, read_receipt g' d = Some v) mid'
          (back_referenced mid_v (narrowed msg_v <$> trest)).
Proof.
  induction trest as [|t trest IH];
    intros g tdone pre mid post mid_v Ha Hmsg Hto Hmid Hlen Hn.
  { destruct mid; [|done]. apply Forall2_nil_inv_l in Hmid as ->.
    exists g, []. cbn. rewrite Nat.add_0_r. by repeat split. }
  destruct mid as [|d mid]; [done |].
  apply Forall2_cons_inv_l in Hmid as (v & mid_v' & Hd & Hmid & ->).
  cbn [length seq annotate_recipients].
  (* the token *)
  assert (read_tokens g (To msg) = Some (tdone ++ t :: trest)) as Htoks.
  { unfold read_message in Hmsg.
    destruct (read_tokens g (To msg)) as [to|]; [|done].
    destruct (read_map g (Data msg)); [|done].
    injection Hmsg as <-. by rewrite <- Hto. }
  assert (array (To msg) ≠ a) as Hne.
  { intros Heq. destruct (read_tokens_array _ _ _ Htoks) as [o Ho].
    - by destruct tdone.
    - rewrite Heq in Ho. congruence. }
  assert (g ⊆ <[a := Receipts (pre ++ (d :: mid) ++ post)]> g) as Hsub
    by by apply insert_subseteq.
  rewrite (bind_run _ _ _ _ _
             (load_token_run _ _ (length tdone) _ t
                (read_tokens_mono _ _ _ _ Hsub Htoks)
                (list_lookup_middle _ _ _ _ eq_refl))).
  (* the first assignment *)
  cbn [app]. rewrite (bind_run _ _ _ _ _
             (store_receipt_run g a n pre (mid ++ post) d _ ltac:(cbn in Hn; lia))).
  (* the allocation *)
  set (h1 := <[a := Receipts (pre ++ set_PushMessage d msg :: mid ++ post)]> g).
  destruct (alloc_run (Tokens [t]) h1) as [Hal Hfresh].
  rewrite (bind_run _ _ _ _ _ Hal).
  set (l := fresh (dom h1)) in *.
  assert (l ≠ a) as Hla.
  { intros Heq. rewrite Heq in Hfresh. unfold h1 in Hfresh.
    by rewrite lookup_insert_eq in Hfresh. }
  assert (g !! l = None) as Hgl.
  { unfold h1 in Hfresh. by rewrite lookup_insert_ne in Hfresh. }
  unfold h1. rewrite insert_insert_ne by done.
  (* the second assignment *)
  rewrite (bind_run _ _ _ _ _
             (store_receipt_run (<[l := Tokens [t]]> g) a n pre (mid ++ post)
                _ _ ltac:(cbn in Hn; lia))).
  set (d2 := set_PushMessage (set_PushMessage d msg)
               (set_To (PushMessage (set_PushMessage d msg)) (mkSlice l 0 1))).
  set (g1 := <[l := Tokens [t]]> g).
  assert (g ⊆ g1) as Hg1 by by apply insert_subseteq.
  assert (g1 !! a = None) as Ha1.
  { unfold g1. by rewrite lookup_insert_ne. }
  assert (read_receipt g1 d2
          = Some (PushResponse.set_PushMessage v (narrowed msg_v t))) as Hd2.
  { clear IH. unfold read_receipt in Hd |- *.
    destruct (read_message g (PushMessage d)); [|done].
    destruct (read_map g (Details d)) as [det|] eqn:Hdet; [|done].
    injection Hd as <-. cbn.
    unfold read_message in Hmsg |- *. cbn.
    destruct (read_tokens g (To msg)); [|done].
    destruct (read_map g (Data msg)) as [dat|] eqn:Hdat; [|done].
    injection Hmsg as <-.
    unfold read_tokens at 1. cbn.
    assert (g1 !! l = Some (Tokens [t])) as -> by apply lookup_insert_eq.
    cbn.
    rewrite (read_map_mono _ _ _ _ Hg1 Hdat),
      (read_map_mono _ _ _ _ Hg1 Hdet). done. }
  (* the rest of the loop *)
  rewrite (cons_middle d2 pre), (assoc_L (++) pre).
  replace (length pre + 1) with (length (pre ++ [d2]))
    by (rewrite length_app; done).
  replace (S (length tdone)) with (length (tdone ++ [t]))
    by (rewrite length_app; cbn; lia).
  destruct (IH g1 (tdone ++ [t]) (pre ++ [d2]) mid post mid_v')
    as (g' & mid' & Hrun & Hsub' & Ha' & Hread); try done.
  - by eapply read_message_mono.
  - by rewrite <- (assoc_L (++)).
  - by eapply read_receipts_mono.
  - by injection Hlen.
  - rewrite length_app. cbn in *. lia.
  - exists g', (d2 :: mid'). rewrite Hrun.
    split; [|split; [by etrans | split; [done |]]].
    + replace (length (pre ++ [d2]) + length trest)
        with (length pre + length (t :: trest))
        by (rewrite length_app; cbn; lia).
      by rewrite <- (assoc_L (++) pre).
    + cbn. constructor; [by eapply read_receipt_mono | done].
Qed.

Lemma load_message_run (g h : heap) (s : slice) (j : nat)
    (batch : list (PushMessage.t (list string)))
    (b : PushMessage.t (list string)) :
  read_messages g s = Some batch → g ⊆ h → batch !! j = Some b →
  ∃ m, load_message s j h = (h, [], SOk m) ∧ read_message g m = Some b.
Proof.
  unfold read_messages, load_message. intros Hread Hsub Hj.
  destruct (decide (len s = 0)); [by injection Hread as <- |].
  destruct (g !! array s) as [o|] eqn:Ho; [|done].
  rewrite (lookup_weaken _ _ _ _ Ho Hsub).
  destruct o as [ts|ms|rs|m]; try done.
  destruct (window ms s) as [w|] eqn:Hw; [|done]. cbn in Hread.
  apply mapM_Some in Hread.
  destruct (Forall2_lookup_r _ _ _ _ _ Hread Hj) as (m & Hm & Hmb).
  exists m. split; [|done].
  rewrite (window_lookup _ _ _ j Hw), Hm; [done |].
  rewrite <- (window_length _ _ _ Hw). by eapply lookup_lt_Some.
Qed.

Lemma annotate_store (a : positive) (n : nat) (messages : slice)
    (batch brest : list (PushMessage.t (list string))) :
  ∀ (g : heap) (bdone : list (PushMessage.t (list string)))
    (pre mid post : list Receipt)
    (mid_v : list (PushResponse.t (list string))),
    g !! a = None →
    read_messages g messages = Some batch →
    batch = bdone ++ brest →
    Forall2 (λ d v, read_receipt g d = Some v) mid mid_v →
    length mid = total_recipients brest →
    (length pre + total_recipients brest ≤ n)%nat →
    ∃ g' mid',
      annotate messages (seq (length bdone) (length brest))
        (mkSlice a 0 n) (length pre)
        (<[a := Receipts (pre ++ mid ++ post)]> g)
      = (<[a := Receipts (pre ++ mid' ++ post)]> g', [], SOk ())
      ∧ g ⊆ g' ∧ g' !! a = None
      ∧ Forall2 (λ d v, read_receipt g' d = Some v) mid'
          (back_referenced mid_v (flattening brest)).
Proof.
  induction brest as [|b brest IH];
    intros g bdone pre mid post mid_v Ha Hbatch Hsplit Hmid Hlen Hn.
  { destruct mid; [|done]. apply Forall2_nil_inv_l in Hmid as ->.
    exists g, []. by repeat split. }
  rewrite total_recipients_cons in Hlen, Hn.
  cbn [length seq annotate].
  assert (g ⊆ <[a := Receipts (pre ++ mid ++ post)]> g) as Hsub
    by by apply insert_subseteq.
  destruct (load_message_run g _ messages (length bdone) batch b Hbatch Hsub)
    as (m & Hload & Hm).
  { rewrite Hsplit. by apply list_lookup_middle. }
  rewrite (bind_run _ _ _ _ _ Hload).
  (* the recipients of this message *)
  assert (read_tokens g (To m) = Some (PushMessage.To b)) as Htoks.
  { unfold read_message in Hm.
    destruct (read_tokens g (To m)) as [to|]; [|done].
    destruct (read_map g (Data m)); [|done]. by injection Hm as <-. }
  rewrite <- (read_tokens_length _ _ _ Htoks).
  set (k := length (PushMessage.To b)) in *.
  rewrite <- (take_drop k mid), <- (assoc_L (++)).
  pose proof (Forall2_take _ _ _ k Hmid) as Hmid1.
  pose proof (Forall2_drop _ _ _ k Hmid) as Hmid2.
  destruct (annotate_recipients_store a n m b (PushMessage.To b) g []
              pre (take k mid) (drop k mid ++ post) (take k mid_v))
    as (g1 & mid1 & Hrun1 & Hsub1 & Ha1 & Hread1); try done.
  { rewrite length_take. lia. }
  { unfold k in *. lia. }
  cbn [length] in Hrun1. fold k in Hrun1.
  rewrite (bind_run _ _ _ _ _ Hrun1).
  (* the messages left *)
  assert (length mid1 = k) as Hk1.
  { rewrite (Forall2_length _ _ _ Hread1). unfold back_referenced.
    rewrite length_zip_with_r_eq; rewrite length_fmap; [done |].
    rewrite <- (Forall2_length _ _ _ Hmid1), length_take. fold k. lia. }
  rewrite (assoc_L (++) pre).
  replace (length pre + k) with (length (pre ++ mid1))
    by (rewrite length_app; lia).
  replace (S (length bdone)) with (length (bdone ++ [b]))
    by (rewrite length_app; cbn; lia).
  destruct (IH g1 (bdone ++ [b]) (pre ++ mid1) (drop k mid) post
              (drop k mid_v))
    as (g' & mid2 & Hrun2 & Hsub2 & Ha2 & Hread2); try done.
  - by eapply read_messages_mono.
  - by rewrite <- (assoc_L (++)).
  - by eapply read_receipts_mono.
  - rewrite length_drop. lia.
  - rewrite length_app. lia.
  - exists g', (mid1 ++ mid2). rewrite Hrun2.
    split; [by rewrite <- !(assoc_L (++)) |].
    split; [by etrans |]. split; [done |].
    rewrite <- (take_drop k mid_v). unfold back_referenced, flattening.
    rewrite bind_cons, zip_with_app.
    + apply Forall2_app; [|done]. by eapply read_receipts_mono.
    + rewrite length_fmap, length_take.
      rewrite <- (Forall2_length _ _ _ Hmid). fold k. lia.
Qed.

(** *** The run over the store and the run over values *)

Lemma simulates_pure_bind {A B C : Type} (m : M (list string) A)
    (f : A → MS B) (g : A → M (list string) C) (h : heap)
    (R : heap → B → C → Prop) :
  (∀ a, result m = Ok a → simulates (f a h) (g a) R) →
  simulates ((pure m ≫= f) h) (m ≫= g) R.
Proof.
  intros Hf. destruct m as [l [a|e|p]]; try done.
  specialize (Hf a eq_refl). unfold simulates in *.
  unfold mbind, MS_bind, M_bind, pure. cbn.
  destruct (f a h) as [[h2 l2] r], (g a) as [l' r'].
  cbn in *. destruct Hf as [-> Hres]. done.
Qed.

Lemma simulates_fail {B C : Type} (e : error (list string)) (h : heap)
    (R : heap → B → C → Prop) :
  simulates (pure (fail e) h) (fail e) R.
Proof. done. Qed.

Lemma validate_Ok (batch : list (PushMessage.t (list string))) (n : nat) :
  MultiRecipient.validate batch 0 = Ok n → n = total_recipients batch.
Proof.
  intros Hv. destruct (decide (valid_batch batch)) as [Hb|Hb].
  - rewrite validate_valid in Hv by done. by injection Hv as <-.
  - destruct (validate_invalid batch 0 Hb) as (e & He & _). congruence.
Qed.

(** The store version of [publishInternal] on a slice that stands for
    [batch] runs as the value version on [batch], and the slice it returns
    stands for the receipts the value version returns. *)
Lemma store_publishInternal_simulates (rt : Runtime (list string))
    (c : MultiRecipient.PushClient) (h : heap) (messages : slice)
    (batch : list (PushMessage.t (list string))) :
  read_messages h messages = Some batch →
  simulates (publishInternal rt c messages h)
    (MultiRecipient.publishInternal rt c batch)
    (λ h' data out, read_receipts h' data = Some out).
Proof.
  intros Hread. unfold publishInternal, MultiRecipient.publishInternal.
  rewrite (bind_run _ _ h h batch) by (unfold snapshot; by rewrite Hread).
  apply simulates_pure_bind. intros expectedReceipts Hexp.
  apply validate_Ok in Hexp. cbn zeta.
  apply simulates_pure_bind. intros jsonBytes _.
  apply simulates_pure_bind. intros req _.
  apply simulates_pure_bind. intros resp _.
  destruct (MultiRecipient.checkStatus resp); [apply simulates_fail |].
  apply simulates_pure_bind. intros r0 _.
  apply simulates_pure_bind. intros r _.
  destruct (Response.Data r) as [rs|] eqn:Hdata.
  2:{ rewrite (bind_run _ _ h h None) by done.
      destruct (Response.Errors r); apply simulates_fail. }
  destruct (alloc_data_run rs h) as (g & a & rs' & Hrun & Hsub & Ha & Hrs).
  rewrite (bind_run _ _ _ _ _ Hrun).
  destruct (Response.Errors r); [apply simulates_fail |]. cbn [len].
  destruct (decide (expectedReceipts ≠ length rs)) as [Hne|Heq].
  { rewrite (read_messages_length _ _ _ Hread). apply simulates_fail. }
  apply dec_stable in Heq.
  assert (length rs' = total_recipients batch) as Hlen.
  { by rewrite (Forall2_length _ _ _ Hrs), <- Heq. }
  destruct (annotate_store a (length rs) messages batch batch g [] []
              rs' [] rs) as (g' & mid' & Hann & Hsub' & Ha' & Hread');
    try done.
  { by eapply read_messages_mono. }
  { cbn. lia. }
  cbn [length app] in Hann. rewrite !app_nil_r in Hann.
  rewrite <- (read_messages_length _ _ _ Hread).
  rewrite (bind_run _ _ _ _ _ Hann).
  rewrite annotate_all by lia.
  split; [done |]. cbn.
  eexists. split; [reflexivity |].
  unfold read_receipts. cbn [len array].
  destruct (decide (length rs = 0)) as [H0|H0].
  { apply length_zero_iff_nil in H0 as ->. done. }
  rewrite lookup_insert_eq.
  assert (length mid' = length rs) as Hmid'.
  { rewrite (Forall2_length _ _ _ Hread'). unfold back_referenced.
    rewrite length_zip_with_l_eq; [done |]. rewrite length_flattening. lia. }
  rewrite <- Hmid', window_all. cbn. apply mapM_Some.
  eapply read_receipts_mono; [|done]. by apply insert_subseteq.
Qed.

End StoreRead.
(** * Properties *)

Section MultiRecipientClaims.
Import MultiRecipient.

Lemma flattening_owner (messages : list PushMessage) (j k : nat)
    (m : PushMessage) (t : ExponentPushToken) :
  messages !! j = Some m → PushMessage.To m !! k = Some t →
  flattening messages !! (total_recipients (take j messages) + k)
  = Some (narrowed m t).
Proof.
  revert j. induction messages as [|m0 messages IH]; intros j Hj Hk; [done |].
  unfold flattening. rewrite bind_cons. destruct j as [|j]; cbn in Hj.
  - injection Hj as ->. cbn. rewrite lookup_app_l.
    + by rewrite list_lookup_fmap, Hk.
    + rewrite length_fmap. by eapply lookup_lt_Some.
  - cbn [take]. rewrite total_recipients_cons, <- Nat.add_assoc.
    rewrite lookup_app_r by (rewrite length_fmap; lia).
    rewrite length_fmap, Nat.add_comm, Nat.add_sub.
    by apply IH.
Qed.

(** C1 as the claim states it fails: on the envelope
    [{"data": [{"status": "ok"}], "errors": []}], answered to a batch of
    one message with one recipient, the gateway's response carries as many
    receipts as the batch has recipients, and the call returns no receipts:
    it fails in the [errors] branch (part_001, lines 142-144). *)
Lemma back_references_with_errors_field_fails :
  ¬ (∀ (rt : Runtime Recipients) (c : PushClient)
       (messages : list PushMessage) (resp : http.Response)
       (r : Response.t Recipients) (receipts : list PushResponse),
       Forall (λ m, PushMessage.To m ≠ []) messages →
       gateway_replied rt c messages resp r →
       Response.Data r = Some receipts →
       length receipts = total_recipients messages →
       ∃ out,
         result (PublishMultiple rt c messages) = Ok out
         ∧ out = back_referenced receipts (flattening messages)).
Proof.
  intros Hclaim.
  destruct (Hclaim (Sample.runtime "e" (Some Sample.empty_errors))
              (Sample.client (Sample.ok200 "e")) Sample.batch1
              (Sample.ok200 "e") Sample.empty_errors
              [Sample.receipt "ok" ""]) as (out & Hout & _).
  - repeat constructor; done.
  - sample_replied.
  - reflexivity.
  - reflexivity.
  - discriminate Hout.
Qed.

(** C1, amended.  When every message of the batch has at least one
    recipient and the gateway answers with an envelope without an [errors]
    field whose [data] holds as many receipts as the batch has recipients,
    [PublishMultiple] returns these receipts in their order, receipt [i]
    carrying the [i]-th message of the flattening as its back-reference:
    the receipt of recipient [k] of message [j] refers to message [j] with
    its recipient list narrowed to that one token. *)
Theorem PublishMultiple_back_references (rt : Runtime Recipients)
    (c : PushClient) (messages : list PushMessage) (resp : http.Response)
    (r : Response.t Recipients) (receipts : list PushResponse) :
  Forall (λ m, PushMessage.To m ≠ []) messages →
  gateway_replied rt c messages resp r →
  Response.Errors r = None →
  Response.Data r = Some receipts →
  length receipts = total_recipients messages →
  ∃ out,
    result (PublishMultiple rt c messages) = Ok out
    ∧ out = back_referenced receipts (flattening messages)
    ∧ length out = length receipts
    ∧ ∀ j k m t,
        messages !! j = Some m → PushMessage.To m !! k = Some t →
        ∃ receipt,
          receipts !! (total_recipients (take j messages) + k) = Some receipt
          ∧ out !! (total_recipients (take j messages) + k)
            = Some (PushResponse.mk (PushMessage.set_To m [t])
                      (PushResponse.Status receipt)
                      (PushResponse.Message receipt)
                      (PushResponse.Details receipt)).
Proof.
  intros _ Hreply Herr Hdata Hlen.
  apply publishInternal_replied in Hreply as [_ Hres].
  rewrite Herr, Hdata in Hres.
  destruct (decide (total_recipients messages ≠ length receipts)); [done |].
  eexists. split; [exact Hres |]. split; [done |].
  assert (length (back_referenced receipts (flattening messages))
          = length receipts) as Hlen'.
  { unfold back_referenced. rewrite length_zip_with_l_eq; [done |].
    by rewrite length_flattening. }
  split; [done |]. intros j k m t Hj Hk.
  pose proof (flattening_owner _ _ _ _ _ Hj Hk) as Hflat.
  destruct (receipts !! (total_recipients (take j messages) + k))
    as [receipt|] eqn:Hrc.
  - exists receipt. split; [done |]. unfold back_referenced.
    rewrite lookup_zip_with, Hrc. cbn. by rewrite Hflat.
  - apply lookup_ge_None in Hrc. apply lookup_lt_Some in Hflat.
    rewrite length_flattening in Hflat. lia.
Qed.

(** C1 on the batch with recipient counts 2 and 1 and three receipts:
    receipts 0 and 1 refer to message 0 narrowed to its first and its second
    token, receipt 2 to message 1 with its one token. *)
Lemma PublishMultiple_back_references_witness :
  let r := Response.mk (Some Sample.three_receipts) None in
  let rt := Sample.runtime "three" (Some r) in
  let c := Sample.client (Sample.ok200 "three") in
  Forall (λ m, PushMessage.To m ≠ []) Sample.batch21
  ∧ gateway_replied rt c Sample.batch21 (Sample.ok200 "three") r
  ∧ length Sample.three_receipts = total_recipients Sample.batch21
  ∧ ∃ out,
      result (PublishMultiple rt c Sample.batch21) = Ok out
      ∧ out =
        [PushResponse.mk (Sample.message ["ExponentPushToken[a]"] "first")
           "ok" "" None;
         PushResponse.mk (Sample.message ["ExponentPushToken[b]"] "first")
           "ok" "" None;
         PushResponse.mk (Sample.message ["ExponentPushToken[c]"] "second")
           "error" "not a registered push notification recipient" None].
Proof.
  cbn zeta.
  assert (Forall (λ m : PushMessage, PushMessage.To m ≠ []) Sample.batch21)
    as Hto by (repeat constructor; discriminate).
  assert (gateway_replied
            (Sample.runtime "three"
               (Some (Response.mk (Some Sample.three_receipts) None)))
            (Sample.client (Sample.ok200 "three")) Sample.batch21
            (Sample.ok200 "three")
            (Response.mk (Some Sample.three_receipts) None)) as Hreply
    by sample_replied.
  split; [exact Hto |]. split; [exact Hreply |]. split; [reflexivity |].
  destruct (PublishMultiple_back_references _ _ _ _ _ Sample.three_receipts
              Hto Hreply eq_refl eq_refl eq_refl)
    as (out & Hres & Hout & _).
  exists out. split; [exact Hres |]. rewrite Hout. reflexivity.
Defined.

(** C2, at the batch with recipient counts 2 and 1 and a response of two
    receipts: the call fails with the count error, and its text says
    "Expected 2", the number of messages, where the expected number of
    receipts ([expectedReceipts], the value compared) is 3. *)
Theorem PublishMultiple_mismatch_reports_messages :
  let r := Response.mk (Some Sample.two_receipts) None in
  validate Sample.batch21 0 = Ok 3
  ∧ PublishMultiple (Sample.runtime "two" (Some r))
      (Sample.client (Sample.ok200 "two")) Sample.batch21
    = ([EvMarshal Sample.batch21;
        EvNewRequest "POST" "https://exp.host/--/api/v2/push/send";
        EvRoundTrip
          (http.mkRequest "POST" "https://exp.host/--/api/v2/push/send"
             [("Content-Type", "application/json")] "[..]");
        EvDecode "two"],
       Err (NewPushServerError
              "Mismatched response length. Expected 2 receipts but only received 2"
              (Sample.ok200 "two") r None))
  ∧ mismatch_text 3 2
    = "Mismatched response length. Expected 3 receipts but only received 2".
Proof. by vm_compute. Qed.

(** The count error of the general case: it is raised when the receipts
    are not as many as the recipients, and reports the number of messages
    and the number of receipts. *)
Lemma PublishMultiple_mismatch (rt : Runtime Recipients) (c : PushClient)
    (messages : list PushMessage) (resp : http.Response)
    (r : Response.t Recipients) (receipts : list PushResponse) :
  gateway_replied rt c messages resp r →
  Response.Errors r = None →
  Response.Data r = Some receipts →
  length receipts ≠ total_recipients messages →
  result (PublishMultiple rt c messages)
  = Err (NewPushServerError
           (mismatch_text (length messages) (length receipts)) resp r None).
Proof.
  intros Hreply Herr Hdata Hlen.
  apply publishInternal_replied in Hreply as [_ Hres].
  rewrite Herr, Hdata in Hres.
  by destruct (decide (total_recipients messages ≠ length receipts)).
Qed.

(** C3.  Validation succeeds exactly on the batches all of whose messages
    have a recipient and no empty token.  On such a batch the loop leaves
    the sum of the recipient counts in [expectedReceipts] and the call goes
    on to serialise the batch; on any other batch the call returns a
    validation error and has made no call at all: no serialisation, no
    request. *)
Theorem validation_exact (rt : Runtime Recipients) (c : PushClient)
    (messages : list PushMessage) :
  (validate messages 0 = Ok (total_recipients messages)
   ↔ valid_batch messages)
  ∧ (valid_batch messages →
     ∃ calls, log (PublishMultiple rt c messages)
              = EvMarshal messages :: calls)
  ∧ (¬ valid_batch messages →
     ∃ e, PublishMultiple rt c messages = ([], Err e)
          ∧ validate messages 0 = Err e
          ∧ classify e = ValidationError).
Proof.
  split; [|split].
  - split; [|apply validate_valid].
    intros Hok. destruct (decide (valid_batch messages)) as [|Hv]; [done |].
    destruct (validate_invalid messages 0 Hv) as (e & He & _). congruence.
  - intros Hv. unfold PublishMultiple, publishInternal.
    rewrite validate_valid by done. unfold lift.
    rewrite log_bind. cbn [log result fst snd app].
    rewrite Marshal_run, log_bind. by eexists.
  - intros Hv. destruct (validate_invalid messages 0 Hv) as (e & He & Hkind).
    exists e. unfold PublishMultiple, publishInternal. rewrite He.
    split; [done |]. split; [done |]. by destruct Hkind as [-> | ->].
Qed.

(** C3 on samples: a message without recipients, a message with an empty
    token, and a valid batch. *)
Example validation_examples :
  let rt := Sample.runtime "{}" (Some Sample.bare) in
  let c := Sample.client (Sample.ok200 "{}") in
  PublishMultiple rt c (Sample.batch21 ++ [Sample.message [] "none"])
  = ([], Err (errors_New "No recipients"))
  ∧ PublishMultiple rt c [Sample.message ["ExponentPushToken[a]"; ""] "x"]
    = ([], Err (errors_New "Invalid push token"))
  ∧ validate Sample.batch21 0 = Ok 3
  ∧ total_recipients Sample.batch21 = 3.
Proof. by vm_compute. Qed.

(** C8.  On the empty batch validation succeeds with an expected count of
    0, and the call goes on: it serialises the empty batch and, when that
    and the construction of the request succeed, sends the request. *)
Theorem empty_batch_is_sent (rt : Runtime Recipients) (c : PushClient) :
  validate [] 0 = Ok 0
  ∧ valid_batch []
  ∧ (∃ calls, log (PublishMultiple rt c []) = EvMarshal [] :: calls)
  ∧ (∀ bytes,
       json_Marshal rt [] = inr bytes →
       url_Parse rt (host c +:+ apiURL c +:+ "/push/send") = None →
       ∃ req calls,
         http.ReqBody req = bytes
         ∧ log (PublishMultiple rt c [])
           = EvMarshal []
             :: EvNewRequest "POST" (host c +:+ apiURL c +:+ "/push/send")
             :: EvRoundTrip req :: calls).
Proof.
  split; [done |]. split; [constructor |]. split.
  - unfold PublishMultiple, publishInternal, lift.
    rewrite log_bind. cbn [log result fst snd app validate].
    rewrite Marshal_run, log_bind. by eexists.
  - intros bytes Hm Hu.
    unfold PublishMultiple, publishInternal, lift.
    rewrite log_bind. cbn [log result fst snd app validate].
    rewrite Marshal_run, log_bind, Hm. cbn [log result fst snd].
    rewrite NewRequest_run, log_bind, Hu. cbn [log result fst snd].
    rewrite Do_run, log_bind. cbn [log result fst snd app].
    destruct (decide (accessToken c ≠ "")); eexists _, _;
      (split; [|reflexivity]); done.
Qed.

(** C8 on a sample: the empty batch is serialised and posted, and an
    envelope with an empty [data] array gives no receipts and no error. *)
Example empty_batch_example :
  PublishMultiple
    (Sample.runtime "none" (Some (Response.mk (Some []) None)))
    (Sample.client (Sample.ok200 "none")) []
  = ([EvMarshal [];
      EvNewRequest "POST" "https://exp.host/--/api/v2/push/send";
      EvRoundTrip
        (http.mkRequest "POST" "https://exp.host/--/api/v2/push/send"
           [("Content-Type", "application/json")] "[..]");
      EvDecode "none"],
     Ok []).
Proof. by vm_compute. Qed.

(** C5 as the claim states it fails: the envelope [{"errors": []}] has
    no request-level error and no [data], and the call fails in the
    [errors] branch, with the request-level error and not the
    malformed-response error. *)
Lemma no_data_with_empty_errors_fails :
  ¬ (∀ (rt : Runtime Recipients) (c : PushClient)
       (messages : list PushMessage) (resp : http.Response)
       (r : Response.t Recipients),
       gateway_replied rt c messages resp r →
       ¬ errors_nonempty r →
       Response.Data r = None →
       ∃ e, result (PublishMultiple rt c messages) = Err e
            ∧ classify e = MalformedResponseError).
Proof.
  intros Hclaim.
  destruct (Hclaim (Sample.runtime "e" (Some Sample.only_empty_errors))
              (Sample.client (Sample.ok200 "e")) Sample.batch1
              (Sample.ok200 "e") Sample.only_empty_errors)
    as (e & He & Hkind).
  - sample_replied.
  - intros (e & errs & Habs). discriminate Habs.
  - reflexivity.
  - injection He as <-. discriminate Hkind.
Qed.

(** C5, amended.  When the gateway's envelope has no [errors] field and no
    [data] field, the call fails with the malformed-response error (a
    [PushServerError] without error entries).  The check sits between the
    other two: an envelope that has an [errors] field fails on that one
    first, also without [data]; and the missing [data] is reported whatever
    the counts are, also for the empty batch, whose expected count 0 is the
    length of the nil slice. *)
Theorem PublishMultiple_no_data (rt : Runtime Recipients) (c : PushClient)
    (messages : list PushMessage) (resp : http.Response)
    (r : Response.t Recipients) :
  gateway_replied rt c messages resp r →
  Response.Data r = None →
  (Response.Errors r = None →
   result (PublishMultiple rt c messages)
   = Err (NewPushServerError "Invalid server response" resp r None)
   ∧ classify (NewPushServerError "Invalid server response" resp r None)
     = MalformedResponseError)
  ∧ (∀ errs, Response.Errors r = Some errs →
     result (PublishMultiple rt c messages)
     = Err (NewPushServerError "Invalid server response" resp r (Some errs))
     ∧ classify
         (NewPushServerError "Invalid server response" resp r (Some errs))
       = GatewayRequestError).
Proof.
  intros Hreply Hdata.
  apply publishInternal_replied in Hreply as [_ Hres].
  rewrite Hdata in Hres. split.
  - intros Herr. by rewrite Herr in Hres.
  - intros errs Herr. by rewrite Herr in Hres.
Qed.

(** C5 on the empty batch and the envelope [{}]: the expected count 0
    equals the length of the missing [data], and the call fails all the
    same. *)
Lemma PublishMultiple_no_data_witness :
  let rt := Sample.runtime "{}" (Some Sample.bare) in
  let c := Sample.client (Sample.ok200 "{}") in
  gateway_replied rt c [] (Sample.ok200 "{}") Sample.bare
  ∧ total_recipients [] = 0
  ∧ result (PublishMultiple rt c [])
    = Err (NewPushServerError "Invalid server response" (Sample.ok200 "{}")
             Sample.bare None).
Proof.
  cbn zeta.
  assert (gateway_replied (Sample.runtime "{}" (Some Sample.bare))
            (Sample.client (Sample.ok200 "{}")) [] (Sample.ok200 "{}")
            Sample.bare) as Hreply by sample_replied.
  split; [exact Hreply |]. split; [reflexivity |].
  destruct (PublishMultiple_no_data _ _ _ _ _ Hreply eq_refl) as [Hbare _].
  exact (proj1 (Hbare eq_refl)).
Defined.




End MultiRecipientClaims.

Section StatusClaims.
Import MultiRecipientURL.




(** C6 on the statuses the spec names: 401, 403 and 500 answered to the
    sample batch, and 200 with a body that does not parse. *)
Example checkStatus_examples :
  let run code status body :=
    PublishMultiple (Sample.runtime "{}" (Some Sample.bare))
      (Sample.url_client (http.mkResponse code status body))
      Sample.batch21 in
  result (run 401%Z "401 Unauthorized" "{}")
  = Err (errorString "invalid access token %!s(int=401)")
  ∧ result (run 403%Z "403 Forbidden" "{}")
    = Err (errorString "invalid access token %!s(int=403)")
  ∧ result (run 500%Z "500 Internal Server Error" "{}")
    = Err (errorString "invalid response 500 Internal Server Error")
  ∧ log (run 500%Z "500 Internal Server Error" "{}")
    = [EvMarshal Sample.batch21;
       EvNewRequest "POST" "https://exp.host/--/api/v2/push/send";
       EvRoundTrip
         (http.mkRequest "POST" "https://exp.host/--/api/v2/push/send"
            [("Content-Type", "application/json");
             ("Authorization", "Bearer secret")] "[..]")]
  ∧ run 200%Z "200 OK" "<html>"
    = ([EvMarshal Sample.batch21;
        EvNewRequest "POST" "https://exp.host/--/api/v2/push/send";
        EvRoundTrip
          (http.mkRequest "POST" "https://exp.host/--/api/v2/push/send"
             [("Content-Type", "application/json");
              ("Authorization", "Bearer secret")] "[..]");
        EvDecode "<html>"],
       Err (jsonError "invalid character")).
Proof. by vm_compute. Qed.

End StatusClaims.

(** C7.  [NewExponentPushToken] returns the string it is given, without an
    error, exactly when the string starts with "ExponentPushToken"; on
    every other string it returns the malformed-token error.  So it accepts
    "ExponentPushToken[abc]" and rejects "abc". *)
Theorem NewExponentPushToken_prefix (T : Type) (token : string) :
  (NewExponentPushToken (T := T) token = (token, None)
   ↔ starts_with "ExponentPushToken" token)
  ∧ (NewExponentPushToken (T := T) token = ("", Some ErrMalformedToken)
     ↔ ¬ starts_with "ExponentPushToken" token)
  ∧ NewExponentPushToken (T := T) "ExponentPushToken[abc]"
    = ("ExponentPushToken[abc]", None)
  ∧ NewExponentPushToken (T := T) "abc" = ("", Some ErrMalformedToken)
  ∧ Error (T := T) ErrMalformedToken
    = "Token should start with ExponentPushToken".
Proof.
  unfold NewExponentPushToken. rewrite <- prefix_starts_with.
  destruct (String.prefix "ExponentPushToken" token); cbn.
  - repeat split; try done; by intros ?.
  - repeat split; try done; by intros [= ].
Qed.

Section SingleTokenClaims.
Import SingleToken.

(** C9.  [Publish] is the first element of what [PublishMultiple] returns
    for the batch of its one message.  Whenever [PublishMultiple] returns
    receipts there is one for each message submitted, so exactly one for
    that batch, and the index 0 is in bounds: [Publish] never panics on
    it, and fails exactly when [PublishMultiple] does, with its error. *)
Theorem Publish_first_receipt (rt : Runtime ExponentPushToken)
    (c : PushClient) (message : PushMessage) :
  (∀ messages out,
     result (PublishMultiple rt c messages) = Ok out →
     length out = length messages)
  ∧ (∀ out,
       result (PublishMultiple rt c [message]) = Ok out →
       ∃ first, out = [first]
                ∧ result (Publish rt c message) = Ok first
                ∧ PushResponse.PushMessage first = message)
  ∧ (∀ e,
       result (PublishMultiple rt c [message]) = Err e →
       result (Publish rt c message) = Err e)
  ∧ result (Publish rt c message) ≠ Panic IndexOutOfRange.
Proof.
  split; [|split; [|split]].
  - intros messages out Hout.
    pose proof (single_outcome rt c messages) as H. rewrite Hout in H.
    destruct H as (data & Hlen & ->). by rewrite length_zip_with_r_eq.
  - intros out Hout.
    pose proof (single_outcome rt c [message]) as H. rewrite Hout in H.
    destruct H as (data & Hlen & ->).
    destruct data as [|d [|? ?]]; try done.
    eexists. split; [reflexivity |].
    unfold Publish. rewrite result_bind, Hout. done.
  - intros e He. unfold Publish. by rewrite result_bind, He.
  - unfold Publish. rewrite result_bind.
    pose proof (single_outcome rt c [message]) as H.
    destruct (result (PublishMultiple rt c [message])) as [out|e|p];
      [|done |by subst p].
    destruct H as (data & Hlen & ->).
    by destruct data as [|d [|? ?]].
Qed.

(** C9 on a sample: the one receipt of the one message. *)
Example Publish_first_receipt_example :
  let r := Response.mk
             (Some [PushResponse.mk (Sample.message "" "") "ok" "" None])
             None in
  Publish (Sample.runtime "one" (Some r))
    (Sample.single_client (Sample.ok200 "one"))
    (Sample.message "ExponentPushToken[a]" "only")
  = ([EvMarshal [Sample.message "ExponentPushToken[a]" "only"];
      EvNewRequest "POST" "https://exp.host/--/api/v2/push/send";
      EvRoundTrip
        (http.mkRequest "POST" "https://exp.host/--/api/v2/push/send"
           [("Content-Type", "application/json")] "[..]");
      EvDecode "one"],
     Ok (PushResponse.mk (Sample.message "ExponentPushToken[a]" "only")
           "ok" "" None)).
Proof. by vm_compute. Qed.

End SingleTokenClaims.

Section StoreClaims.
Import Store.

(** C10.  A call leaves every object of the caller's store as it was: the
    array of the batch, the arrays of the recipient lists, the maps;
    whether the call returns receipts, an error or panics.  So the slice
    passed in stands for the same batch afterwards.  The call writes only
    into the array the decoder allocated for [r.Data] and into the
    one-token arrays it allocates itself; what it returns is what
    [MultiRecipient.PublishMultiple] returns on the batch. *)
Theorem PublishMultiple_keeps_batch (rt : Runtime (list ExponentPushToken))
    (c : MultiRecipient.PushClient) (h : heap) (messages : slice) :
  let run := PublishMultiple rt c messages h in
  h ⊆ heap_of run
  ∧ (∀ batch,
       read_messages h messages = Some batch →
       read_messages (heap_of run) messages = Some batch
       ∧ simulates run (MultiRecipient.PublishMultiple rt c batch)
           (λ h' data out, read_receipts h' data = Some out)).
Proof.
  cbn zeta. unfold PublishMultiple.
  assert (h ⊆ heap_of (publishInternal rt c messages h)) as Hsub.
  { apply map_subseteq_spec. intros l o Hl.
    rewrite (keeps_publishInternal (dom h) rt c messages h); [done..|].
    apply elem_of_dom. by eexists. }
  split; [done |]. intros batch Hread. split.
  - by eapply read_messages_mono.
  - by apply store_publishInternal_simulates.
Qed.

(** C10 on the sample batch held in a store: after a call that returns
    three receipts the slice stands for the same batch, and the receipts
    refer to the narrowed messages. *)
Example PublishMultiple_keeps_batch_example :
  let run :=
    PublishMultiple
      (Sample.runtime "three"
         (Some (Response.mk (Some Sample.three_receipts) None)))
      (Sample.client (Sample.ok200 "three")) Sample.slice21
      Sample.store21 in
  read_messages Sample.store21 Sample.slice21 = Some Sample.batch21
  ∧ read_messages (heap_of run) Sample.slice21 = Some Sample.batch21
  ∧ ∃ data,
      res_of run = SOk data
      ∧ read_receipts (heap_of run) data
        = Some (back_referenced Sample.three_receipts
                  (flattening Sample.batch21)).
Proof.
  cbn zeta. split; [by vm_compute |]. split; [by vm_compute |].
  eexists. split; by vm_compute.
Qed.

End StoreClaims.

(** * Further properties *)

(** ** Validating a receipt *)

Lemma map_index_code (m : gmap string string) (code : string) :
  code ≠ "" → (map_index m "error" = code ↔ m !! "error" = Some code).
Proof.
  intros Hne. unfold map_index. destruct (m !! "error") as [c|]; cbn.
  - split; [by intros -> | by intros [= ->]].
  - split; [by intros <- | done].
Qed.

(** X1.  [ValidateResponse] returns no error exactly for the status "ok",
    whatever the details say.  For any other status it returns the error
    type of the code found under "error" in the details, for the three
    codes it knows, and the base error otherwise: without details, without
    that key, or with another code.  The error always points to the
    receipt validated, and its text is the receipt's message. *)
Theorem ValidateResponse_classifies {T : Type} (r : PushResponse.t T) :
  let err := PushResponseError.mk (Some r) in
  (ValidateResponse r = None ↔ PushResponse.Status r = "ok")
  ∧ (PushResponse.Status r ≠ "ok" →
     (ValidateResponse r = Some (DeviceNotRegisteredError err)
      ↔ has_code r "DeviceNotRegistered")
     ∧ (ValidateResponse r = Some (MessageTooBigError err)
        ↔ has_code r "MessageTooBig")
     ∧ (ValidateResponse r = Some (MessageRateExceededError err)
        ↔ has_code r "MessageRateExceeded")
     ∧ (ValidateResponse r = Some (pushResponseError err)
        ↔ ¬ has_code r "DeviceNotRegistered"
          ∧ ¬ has_code r "MessageTooBig"
          ∧ ¬ has_code r "MessageRateExceeded"))
  ∧ (∀ e, ValidateResponse r = Some e →
          embedded e = err
          ∧ ResponseError_Error e = PushResponse.Message r).
Proof.
  cbn zeta. unfold ValidateResponse, isSuccess, SuccessStatus, has_code.
  case_bool_decide as Hok.
  { split; [done |]. split; [done |]. by intros e [=]. }
  split.
  { split; [|done]. destruct (PushResponse.Details r) as [m|];
      repeat case_decide; done. }
  split.
  2:{ intros e He. destruct (PushResponse.Details r) as [m|];
        repeat case_decide; by injection He as <-. }
  intros _. destruct (PushResponse.Details r) as [m|].
  2:{ repeat split; try done; try (by intros (? & [=] & _));
      intros _; repeat split; by intros (? & [=] & _). }
  pose proof (map_index_code m "DeviceNotRegistered" ltac:(done)) as H1.
  pose proof (map_index_code m "MessageTooBig" ltac:(done)) as H2.
  pose proof (map_index_code m "MessageRateExceeded" ltac:(done)) as H3.
  unfold ErrorDeviceNotRegistered, ErrorMessageTooBig,
    ErrorMessageRateExceeded.
  repeat case_decide; repeat split; try done;
    try (by intros (m' & [= <-] & Hm); intuition congruence);
    try (by intros _; exists m; intuition);
    try (by intros (_ & _ & ?); intuition (eauto));
    try (by intros (? & ? & ?); intuition (eauto)).
  all: intros (Ha & Hb & Hc); exfalso;
    first [ by apply Ha; exists m; intuition
          | by apply Hb; exists m; intuition
          | by apply Hc; exists m; intuition ].
Qed.

(** The tests of part_003 on [ValidateResponse]. *)
Example ValidateResponse_tests :
  let response status message details : PushResponse.t string :=
    PushResponse.mk (Sample.message "" "") status message details in
  let r1 := response "error" "failed" (Some ∅) in
  let r2 := response "ok" "" None in
  let r3 := response "error" "Not registered"
              (Some {["error" := "DeviceNotRegistered"]}) in
  let r4 := response "error" "Message too big"
              (Some {["error" := "MessageTooBig"]}) in
  let r5 := response "error" "Too many messages at once"
              (Some {["error" := "MessageRateExceeded"]}) in
  ValidateResponse r1 = Some (pushResponseError (PushResponseError.mk (Some r1)))
  ∧ ValidateResponse r2 = None
  ∧ ValidateResponse r3
    = Some (DeviceNotRegisteredError (PushResponseError.mk (Some r3)))
  ∧ ValidateResponse r4
    = Some (MessageTooBigError (PushResponseError.mk (Some r4)))
  ∧ ValidateResponse r5
    = Some (MessageRateExceededError (PushResponseError.mk (Some r5))).
Proof. by vm_compute. Qed.

(** ** The multi-recipient client, step by step *)

(** Setting the back-reference of a receipt changes what
    [ValidateResponse] makes of it only in the receipt the error points
    to. *)
Lemma ValidateResponse_set_PushMessage {T : Type} (d : PushResponse.t T)
    (m : PushMessage.t T) :
  ValidateResponse (PushResponse.set_PushMessage d m)
  = carrying (PushResponse.set_PushMessage d m) <$> ValidateResponse d.
Proof.
  unfold ValidateResponse, isSuccess. destruct d as [m0 st msg det]. cbn.
  case_bool_decide; [done |]. destruct det; [|done]. cbn.
  repeat case_decide; done.
Qed.

Section MultiRecipientRun.
Import MultiRecipient.

(** The run of a call, by what the library calls and the transport
    answer. *)
Lemma multi_run (rt : Runtime Recipients) (c : PushClient)
    (messages : list PushMessage) :
  let url := host c +:+ apiURL c +:+ "/push/send" in
  let request bytes :=
    let req0 :=
      http.Header_Add (http.mkRequest "POST" url [] bytes)
        "Content-Type" "application/json" in
    if decide (accessToken c ≠ "")
    then http.Header_Add req0 "Authorization" ("Bearer " +:+ accessToken c)
    else req0 in
  PublishMultiple rt c messages =
  match validate messages 0 with
  | Ok expectedReceipts =>
      match json_Marshal rt messages with
      | inl e => ([EvMarshal messages], Err (jsonError e))
      | inr bytes =>
          match url_Parse rt url with
          | Some e =>
              ([EvMarshal messages; EvNewRequest "POST" url],
               Err (httpError e))
          | None =>
              match httpClient c (request bytes) with
              | inl e =>
                  ([EvMarshal messages; EvNewRequest "POST" url;
                    EvRoundTrip (request bytes)], Err (httpError e))
              | inr resp =>
                  match checkStatus resp with
                  | Some e =>
                      ([EvMarshal messages; EvNewRequest "POST" url;
                        EvRoundTrip (request bytes)], Err e)
                  | None =>
                      ([EvMarshal messages; EvNewRequest "POST" url;
                        EvRoundTrip (request bytes);
                        EvDecode (http.Body resp)],
                       match json_Decode rt (http.Body resp) with
                       | inl e => Err (jsonError e)
                       | inr None => Panic NilDereference
                       | inr (Some r) =>
                           match Response.Errors r, Response.Data r with
                           | Some errs, _ =>
                               Err (NewPushServerError
                                      "Invalid server response" resp r
                                      (Some errs))
                           | None, None =>
                               Err (NewPushServerError
                                      "Invalid server response" resp r None)
                           | None, Some data =>
                               if decide (expectedReceipts ≠ length data)
                               then Err (NewPushServerError
                                           (mismatch_text (length messages)
                                              (length data)) resp r None)
                               else Ok (back_referenced data
                                          (flattening messages))
                           end
                       end)
                  end
              end
          end
      end
  | Err e => ([], Err e)
  | Panic p => ([], Panic p)
  end.
Proof.
  cbn zeta. unfold PublishMultiple, publishInternal.
  destruct (validate messages 0) as [n|e|p] eqn:Hv; [|done..].
  apply validate_Ok in Hv as ->. unfold lift. cbn [mbind M_bind].
  rewrite Marshal_run.
  destruct (json_Marshal rt messages) as [e|bytes]; [done |].
  cbn [mbind M_bind]. rewrite NewRequest_run.
  destruct (url_Parse rt _) as [e|]; [done |].
  cbn [mbind M_bind]. rewrite Do_run. cbn [http.Header_Add].
  destruct (httpClient c _) as [e|resp]; [done |].
  cbn [mbind M_bind]. destruct (checkStatus resp); [done |].
  rewrite Decode_run.
  destruct (json_Decode rt _) as [e|[r|]]; [done | |done].
  cbn [mbind M_bind deref mret M_ret].
  destruct (Response.Errors r); [done |].
  destruct (Response.Data r) as [data|]; [|done].
  destruct (decide (total_recipients messages ≠ length data)) as [|Heq];
    [done |].
  apply dec_stable in Heq. by rewrite annotate_all.
Qed.

(** X2.  A call makes its library calls in one order and each at most
    once: it serialises the batch, builds the request, sends it, decodes
    the answer.  So there is never a second request, and nothing is decoded
    that was not answered to the one request.  A call that returns receipts
    has made all four calls. *)
Theorem PublishMultiple_calls_once (rt : Runtime Recipients) (c : PushClient)
    (messages : list PushMessage) :
  ∃ req body,
    log (PublishMultiple rt c messages)
    `prefix_of` [EvMarshal messages;
                 EvNewRequest "POST" (host c +:+ apiURL c +:+ "/push/send");
                 EvRoundTrip req; EvDecode body]
    ∧ (length (round_trips (log (PublishMultiple rt c messages))) ≤ 1)%nat
    ∧ (∀ resp, httpClient c req = inr resp →
               body_parsed (PublishMultiple rt c messages) →
               body = http.Body resp)
    ∧ (∀ out, result (PublishMultiple rt c messages) = Ok out →
              log (PublishMultiple rt c messages)
              = [EvMarshal messages;
                 EvNewRequest "POST" (host c +:+ apiURL c +:+ "/push/send");
                 EvRoundTrip req; EvDecode body]).
Proof.
  rewrite multi_run. cbn zeta.
  set (none := http.mkRequest "" "" [] "").
  destruct (validate messages 0);
    [|exists none, ""; repeat split; cbn; try done; try lia;
       try apply prefix_nil; by intros ? ? [? ?%elem_of_nil]..].
  destruct (json_Marshal rt messages) as [e|bytes].
  { exists none, "". repeat split; cbn; try done; try lia.
    - by eexists.
    - intros ? ? [? Hin]. by log_inv Hin. }
  destruct (url_Parse rt _).
  { exists none, "". repeat split; cbn; try done; try lia.
    - by eexists.
    - intros ? ? [? Hin]. by log_inv Hin. }
  match goal with
  | |- context [httpClient c ?r] => set (req0 := r)
  end.
  destruct (httpClient c req0) as [e|resp] eqn:Hc.
  { exists req0, "". repeat split; cbn; try done; try lia.
    - by eexists.
    - intros ? ? [? Hin]. by log_inv Hin. }
  destruct (checkStatus resp).
  { exists req0, "". repeat split; cbn; try done; try lia.
    - by eexists.
    - intros ? ? [? Hin]. by log_inv Hin. }
  exists req0, (http.Body resp). split; [done |]. split; [cbn; lia |].
  split; [|done]. intros resp' Hresp _. congruence.
Qed.

(** X3.  The request a call sends is a POST to the client's host and API
    path followed by "/push/send"; its body is what serialising the batch
    gave; it has the JSON content type, and a bearer authorisation header
    after it exactly when the client has an access token. *)
Theorem PublishMultiple_request (rt : Runtime Recipients) (c : PushClient)
    (messages : list PushMessage) (req : http.Request) :
  EvRoundTrip req ∈ log (PublishMultiple rt c messages) →
  http.Method req = "POST"
  ∧ http.URL req = host c +:+ apiURL c +:+ "/push/send"
  ∧ json_Marshal rt messages = inr (http.ReqBody req)
  ∧ http.Header req
    = ("Content-Type", "application/json")
      :: (if decide (accessToken c = "") then []
          else [("Authorization", "Bearer " +:+ accessToken c)]).
Proof.
  intros Hin. apply round_trip_logged in Hin as (_ & bytes & Hm & _ & ->).
  cbn zeta. rewrite Hm.
  destruct (decide (accessToken c ≠ "")) as [Hne|He].
  - by rewrite decide_False.
  - apply dec_stable in He. by rewrite decide_True.
Qed.

(** X3 on a client with the access token "secret". *)
Lemma PublishMultiple_request_witness :
  let req :=
    http.mkRequest "POST" "https://exp.host/--/api/v2/push/send"
      [("Content-Type", "application/json");
       ("Authorization", "Bearer secret")] "[..]" in
  EvRoundTrip req
  ∈ log (PublishMultiple (Sample.runtime "{}" (Some Sample.bare))
           (Sample.token_client (Sample.ok200 "{}")) Sample.batch21)
  ∧ http.Header req
    = [("Content-Type", "application/json");
       ("Authorization", "Bearer secret")].
Proof.
  cbn zeta.
  assert (EvRoundTrip
            (http.mkRequest "POST" "https://exp.host/--/api/v2/push/send"
               [("Content-Type", "application/json");
                ("Authorization", "Bearer secret")] "[..]")
          ∈ log (PublishMultiple (Sample.runtime "{}" (Some Sample.bare))
                   (Sample.token_client (Sample.ok200 "{}")) Sample.batch21))
    as Hin.
  { lazy. do 2 apply list_elem_of_further. apply list_elem_of_here. }
  split; [exact Hin |].
  exact (proj2 (proj2 (proj2 (PublishMultiple_request _ _ _ _ Hin)))).
Defined.

(** The run of a call from the answer to its request on. *)
Lemma multi_after_send (rt : Runtime Recipients) (c : PushClient)
    (messages : list PushMessage) (req : http.Request) :
  EvRoundTrip req ∈ log (PublishMultiple rt c messages) →
  valid_batch messages
  ∧ PublishMultiple rt c messages =
    let sent := [EvMarshal messages;
                 EvNewRequest "POST" (host c +:+ apiURL c +:+ "/push/send");
                 EvRoundTrip req] in
    match httpClient c req with
    | inl e => (sent, Err (httpError e))
    | inr resp =>
        match checkStatus resp with
        | Some e => (sent, Err e)
        | None =>
            (sent ++ [EvDecode (http.Body resp)],
             match json_Decode rt (http.Body resp) with
             | inl e => Err (jsonError e)
             | inr None => Panic NilDereference
             | inr (Some r) =>
                 match Response.Errors r, Response.Data r with
                 | Some errs, _ =>
                     Err (NewPushServerError "Invalid server response" resp r
                            (Some errs))
                 | None, None =>
                     Err (NewPushServerError "Invalid server response" resp r
                            None)
                 | None, Some data =>
                     if decide (total_recipients messages ≠ length data)
                     then Err (NewPushServerError
                                 (mismatch_text (length messages)
                                    (length data)) resp r None)
                     else Ok (back_referenced data (flattening messages))
                 end
             end)
        end
    end.
Proof.
  intros Hin. apply round_trip_logged in Hin as (Hv & bytes & Hm & Hu & Hr).
  split; [done |]. rewrite multi_run. cbn zeta in *.
  rewrite validate_valid, Hm, Hu, <- Hr by done. cbn [Nat.add].
  destruct (httpClient c req) as [e|resp]; [done |].
  by destruct (checkStatus resp).
Qed.

(** X4.  When the transport fails on the request, the call returns the
    transport's error and stops: nothing is decoded. *)
Theorem PublishMultiple_transport_error (rt : Runtime Recipients)
    (c : PushClient) (messages : list PushMessage) (req : http.Request)
    (e : string) :
  EvRoundTrip req ∈ log (PublishMultiple rt c messages) →
  httpClient c req = inl e →
  result (PublishMultiple rt c messages) = Err (httpError e)
  ∧ classify (T := Recipients) (httpError e) = TransportError
  ∧ ¬ body_parsed (PublishMultiple rt c messages).
Proof.
  intros Hin He. apply multi_after_send in Hin as [_ Hrun].
  rewrite Hrun, He. cbn. repeat split. intros [body Hb]. by log_inv Hb.
Qed.

(** X4 on a transport that is down. *)
Lemma PublishMultiple_transport_error_witness :
  let req :=
    http.mkRequest "POST" "https://exp.host/--/api/v2/push/send"
      [("Content-Type", "application/json")] "[..]" in
  let run := PublishMultiple (Sample.runtime "{}" (Some Sample.bare))
               Sample.down_client Sample.batch21 in
  EvRoundTrip req ∈ log run
  ∧ result run = Err (httpError "connection refused").
Proof.
  cbn zeta.
  assert (EvRoundTrip
            (http.mkRequest "POST" "https://exp.host/--/api/v2/push/send"
               [("Content-Type", "application/json")] "[..]")
          ∈ log (PublishMultiple (Sample.runtime "{}" (Some Sample.bare))
                   Sample.down_client Sample.batch21)) as Hin.
  { lazy. do 2 apply list_elem_of_further. apply list_elem_of_here. }
  split; [exact Hin |].
  exact (proj1 (PublishMultiple_transport_error _ _ _ _
                  "connection refused" Hin eq_refl)).
Defined.

(** X5.  When the gateway answers with a status outside 200-299, 401 and
    403 included, the call returns the one error of this client's
    [checkStatus], whose text holds the status code and the status line,
    and never decodes the body. *)
Theorem PublishMultiple_bad_status (rt : Runtime Recipients) (c : PushClient)
    (messages : list PushMessage) (req : http.Request)
    (resp : http.Response) :
  EvRoundTrip req ∈ log (PublishMultiple rt c messages) →
  httpClient c req = inr resp →
  ¬ is_2xx resp →
  result (PublishMultiple rt c messages)
  = Err (errorString
           ("Invalid response (" +:+ fmt_d (http.StatusCode resp) +:+ " "
            +:+ http.Status resp +:+ ")"))
  ∧ ¬ body_parsed (PublishMultiple rt c messages).
Proof.
  intros Hin Hresp H2. apply multi_after_send in Hin as [_ Hrun].
  rewrite Hrun, Hresp. cbn zeta.
  destruct (checkStatus resp) as [e|] eqn:Hs.
  2:{ by apply checkStatus_2xx in Hs. }
  unfold checkStatus in Hs.
  destruct (_ && _); [done |]. injection Hs as <-.
  split; [done |]. intros [body Hb]. by log_inv Hb.
Qed.

(** X5 on the status 401. *)
Lemma PublishMultiple_bad_status_witness :
  let resp := http.mkResponse 401 "401 Unauthorized" "{}" in
  let run := PublishMultiple (Sample.runtime "{}" (Some Sample.bare))
               (Sample.client resp) Sample.batch21 in
  ¬ is_2xx resp
  ∧ run
    = ([EvMarshal Sample.batch21;
        EvNewRequest "POST" "https://exp.host/--/api/v2/push/send";
        EvRoundTrip
          (http.mkRequest "POST" "https://exp.host/--/api/v2/push/send"
             [("Content-Type", "application/json")] "[..]")],
       Err (errorString "Invalid response (401 401 Unauthorized)")).
Proof.
  cbn zeta.
  assert (¬ is_2xx (http.mkResponse 401 "401 Unauthorized" "{}")) as H2.
  { unfold is_2xx. cbn. lia. }
  split; [exact H2 |].
  pose proof (PublishMultiple_bad_status
                (Sample.runtime "{}" (Some Sample.bare))
                (Sample.client (http.mkResponse 401 "401 Unauthorized" "{}"))
                Sample.batch21
                (http.mkRequest "POST" "https://exp.host/--/api/v2/push/send"
                   [("Content-Type", "application/json")] "[..]")
                (http.mkResponse 401 "401 Unauthorized" "{}")) as H.
  destruct H as [Hres _].
  - lazy. do 2 apply list_elem_of_further. apply list_elem_of_here.
  - reflexivity.
  - exact H2.
  - reflexivity.
Defined.

(** X6.  When the gateway answers a status in 200-299 with the JSON text
    [null], which the decoder accepts and which leaves the envelope pointer
    nil, the call panics on the nil pointer: it returns neither receipts
    nor an error. *)
Theorem PublishMultiple_null_body (rt : Runtime Recipients) (c : PushClient)
    (messages : list PushMessage) (req : http.Request)
    (resp : http.Response) :
  EvRoundTrip req ∈ log (PublishMultiple rt c messages) →
  httpClient c req = inr resp →
  is_2xx resp →
  json_Decode rt (http.Body resp) = inr None →
  result (PublishMultiple rt c messages) = Panic NilDereference.
Proof.
  intros Hin Hresp H2 Hnull. apply multi_after_send in Hin as [_ Hrun].
  apply checkStatus_2xx in H2. by rewrite Hrun, Hresp, H2, Hnull.
Qed.

(** X6 on a sample. *)
Lemma PublishMultiple_null_body_witness :
  let run := PublishMultiple (Sample.runtime "null" None)
               (Sample.client (Sample.ok200 "null")) Sample.batch21 in
  EvDecode "null" ∈ log run ∧ result run = Panic NilDereference.
Proof.
  cbn zeta. split.
  { lazy. do 3 apply list_elem_of_further. apply list_elem_of_here. }
  apply (PublishMultiple_null_body (Sample.runtime "null" None)
           (Sample.client (Sample.ok200 "null")) Sample.batch21
           (http.mkRequest "POST" "https://exp.host/--/api/v2/push/send"
              [("Content-Type", "application/json")] "[..]")
           (Sample.ok200 "null")).
  - lazy. do 2 apply list_elem_of_further. apply list_elem_of_here.
  - reflexivity.
  - unfold is_2xx. cbn. lia.
  - reflexivity.
Defined.

(** A call returns receipts only after validation, a 2xx answer and an
    envelope with as many receipts as recipients. *)
Lemma multi_Ok_inv (rt : Runtime Recipients) (c : PushClient)
    (messages : list PushMessage) (out : list PushResponse) :
  result (PublishMultiple rt c messages) = Ok out →
  valid_batch messages
  ∧ ∃ resp r receipts,
      gateway_replied rt c messages resp r
      ∧ Response.Errors r = None
      ∧ Response.Data r = Some receipts
      ∧ length receipts = total_recipients messages
      ∧ out = back_referenced receipts (flattening messages).
Proof.
  intros Hout. unfold gateway_replied.
  rewrite multi_run in *. cbn zeta in *.
  destruct (validate messages 0) as [n|e|p'] eqn:Hv; [|done..].
  assert (valid_batch messages) as Hb.
  { destruct (decide (valid_batch messages)) as [|Hb]; [done |].
    destruct (validate_invalid messages 0 Hb) as (? & ? & _). congruence. }
  apply validate_Ok in Hv as ->. split; [done |].
  destruct (json_Marshal rt messages) as [e|bytes]; [done |].
  destruct (url_Parse rt _); [done |].
  match goal with
  | |- context [httpClient c ?r] => set (req0 := r) in *
  end.
  destruct (httpClient c req0) as [e|resp] eqn:Hc; [done |].
  destruct (checkStatus resp) eqn:Hs; [done |].
  destruct (json_Decode rt _) as [e|[r|]] eqn:Hd; [done | |done].
  cbn in Hout.
  destruct (Response.Errors r) eqn:Herr; [done |].
  destruct (Response.Data r) as [data|] eqn:Hdata; [|done].
  destruct (decide (total_recipients messages ≠ length data)) as [|Heq];
    [done |].
  apply dec_stable in Heq. injection Hout as <-.
  exists resp, r, data. repeat split; try done.
  exists req0. split; [|split; [done |split; [|done]]].
  - cbn. do 2 apply list_elem_of_further. apply list_elem_of_here.
  - by apply checkStatus_2xx.
Qed.

(** X7.  A call returns receipts only if the batch passed validation and
    the gateway answered with a status in 200-299 and an envelope without
    [errors] whose [data] has one receipt for each recipient; the receipts
    returned are then these, with the flattening as back-references.  The
    index into [r.Data] never leaves the slice: no call ends in a panic on
    an index out of range. *)
Theorem PublishMultiple_success_only_if (rt : Runtime Recipients)
    (c : PushClient) (messages : list PushMessage) :
  (∀ out,
     result (PublishMultiple rt c messages) = Ok out →
     valid_batch messages
     ∧ ∃ resp r receipts,
         gateway_replied rt c messages resp r
         ∧ Response.Errors r = None
         ∧ Response.Data r = Some receipts
         ∧ length receipts = total_recipients messages
         ∧ out = back_referenced receipts (flattening messages))
  ∧ result (PublishMultiple rt c messages) ≠ Panic IndexOutOfRange.
Proof.
  split; [apply multi_Ok_inv |].
  rewrite multi_run. cbn zeta.
  destruct (validate messages 0) as [n|e|p'] eqn:Hv; [|done |].
  2:{ destruct (decide (valid_batch messages)) as [Hb|Hb].
      - by rewrite validate_valid in Hv.
      - destruct (validate_invalid messages 0 Hb) as (? & ? & _).
        congruence. }
  repeat case_match; done.
Qed.

Lemma flattening_lookup (messages : list PushMessage) (i : nat)
    (x : PushMessage) :
  flattening messages !! i = Some x →
  ∃ m t, m ∈ messages ∧ t ∈ PushMessage.To m ∧ x = narrowed m t.
Proof.
  intros Hi. apply list_elem_of_lookup_2 in Hi. unfold flattening in Hi.
  apply list_elem_of_bind in Hi as (m & Hx & Hm).
  apply list_elem_of_fmap in Hx as (t & -> & Ht). eauto.
Qed.

(** X8.  [ValidateResponse] on a receipt that [PublishMultiple] returned:
    an error it gives is the error the receipt gives as the gateway sent
    it, pointing to the returned receipt; and the message of that receipt
    is a message of the batch narrowed to one of its tokens, a non-empty
    one.  So the caller reads the token that failed off the error. *)
Theorem failed_receipt_names_recipient (rt : Runtime Recipients)
    (c : PushClient) (messages : list PushMessage)
    (out : list PushResponse) (i : nat) (receipt : PushResponse)
    (e : ResponseError Recipients) :
  result (PublishMultiple rt c messages) = Ok out →
  out !! i = Some receipt →
  ValidateResponse receipt = Some e →
  ∃ m t sent e0,
    m ∈ messages ∧ t ∈ PushMessage.To m ∧ t ≠ ""
    ∧ flattening messages !! i = Some (narrowed m t)
    ∧ receipt = PushResponse.set_PushMessage sent (narrowed m t)
    ∧ ValidateResponse sent = Some e0
    ∧ e = carrying receipt e0
    ∧ embedded e = PushResponseError.mk (Some receipt)
    ∧ PushMessage.To
        (PushResponse.PushMessage receipt) = [t].
Proof.
  intros Hout Hi He.
  apply multi_Ok_inv in Hout as (Hv & resp & r & data & _ & _ & _ & _ & ->).
  unfold back_referenced in Hi.
  apply lookup_zip_with_Some in Hi as (sent & x & -> & Hsent & Hx).
  destruct (flattening_lookup _ _ _ Hx) as (m & t & Hm & Ht & ->).
  rewrite ValidateResponse_set_PushMessage in He.
  destruct (ValidateResponse sent) as [e0|] eqn:He0; [|done].
  injection He as <-.
  exists m, t, sent, e0. repeat split; try done.
  - unfold valid_batch in Hv. rewrite Forall_forall in Hv.
    destruct (Hv m Hm) as [_ Htok]. rewrite Forall_forall in Htok.
    by apply Htok.
  - by destruct e0.
Qed.

(** X8 on the batch with recipient counts 2 and 1, whose third receipt is
    an error: the error names the one token of the second message. *)
Lemma failed_receipt_names_recipient_witness :
  let r := Response.mk (Some Sample.three_receipts) None in
  let run := PublishMultiple (Sample.runtime "{..}" (Some r))
               (Sample.client (Sample.ok200 "{..}")) Sample.batch21 in
  let receipt :=
    PushResponse.mk (Sample.message ["ExponentPushToken[c]"] "second")
      "error" "not a registered push notification recipient" None in
  (∃ out, result run = Ok out ∧ out !! 2 = Some receipt)
  ∧ ValidateResponse receipt
    = Some (pushResponseError (PushResponseError.mk (Some receipt)))
  ∧ ∃ m, m ∈ Sample.batch21
         ∧ PushResponse.PushMessage receipt
           = narrowed m "ExponentPushToken[c]".
Proof.
  cbn zeta. split; [eexists; split; reflexivity |]. split; [reflexivity |].
  destruct (failed_receipt_names_recipient
              (Sample.runtime "{..}"
                 (Some (Response.mk (Some Sample.three_receipts) None)))
              (Sample.client (Sample.ok200 "{..}")) Sample.batch21
              _ 2 _ _ eq_refl eq_refl eq_refl)
    as (m & t & sent & e0 & Hm & _ & _ & _ & Hr & _ & _ & _ & Ht).
  exists m. split; [done |]. cbn in Ht. injection Ht as <-.
  exact (f_equal PushResponse.PushMessage Hr).
Defined.

Lemma validate_app (pre rest : list PushMessage) (n : nat) :
  valid_batch pre →
  validate (pre ++ rest) n = validate rest (n + total_recipients pre).
Proof.
  intros Hv. revert n.
  induction Hv as [|m pre [Hne Htok] _ IH]; intros n; cbn [app validate].
  - f_equal. unfold total_recipients. cbn. lia.
  - destruct (decide (length (PushMessage.To m) = 0)) as [H0|_].
    { by apply length_zero_iff_nil in H0. }
    apply validate_recipients_None in Htok.
    rewrite Htok, IH, total_recipients_cons. f_equal. lia.
Qed.

(** X9.  Validation stops at the first message that fails it, and that
    message alone decides the error: "No recipients" when its recipient
    list is empty, "Invalid push token" otherwise.  What comes after that
    message in the batch plays no part, and no call is made. *)
Theorem validation_first_offender (rt : Runtime Recipients) (c : PushClient)
    (pre post : list PushMessage) (m : PushMessage) :
  valid_batch pre →
  ¬ valid_message m →
  PublishMultiple rt c (pre ++ m :: post)
  = ([], Err (errors_New
                (if decide (PushMessage.To m = []) then "No recipients"
                 else "Invalid push token"))).
Proof.
  intros Hpre Hm. unfold PublishMultiple, publishInternal.
  rewrite validate_app by done. cbn [validate].
  destruct (decide (length (PushMessage.To m) = 0)) as [H0|H0].
  { apply length_zero_iff_nil in H0. by rewrite decide_True. }
  rewrite decide_False by (intros Hnil; by rewrite Hnil in H0).
  destruct (validate_recipients (PushMessage.To m)) as [e|] eqn:Hr.
  - by apply validate_recipients_Some in Hr as ->.
  - destruct Hm. split; [|by apply validate_recipients_None].
    intros Hnil. by rewrite Hnil in H0.
Qed.

(** X9 on a batch whose second message has an empty token and whose third
    has no recipients. *)
Lemma validation_first_offender_witness :
  let pre := [Sample.message ["ExponentPushToken[a]"] "first"] in
  let m := Sample.message ["ExponentPushToken[b]"; ""] "second" in
  let post := [Sample.message [] "third"] in
  valid_batch pre ∧ ¬ valid_message m
  ∧ PublishMultiple (Sample.runtime "{}" (Some Sample.bare))
      (Sample.client (Sample.ok200 "{}")) (pre ++ m :: post)
    = ([], Err (errors_New "Invalid push token")).
Proof.
  cbn zeta.
  assert (valid_batch [Sample.message ["ExponentPushToken[a]"] "first"])
    as Hpre.
  { repeat constructor; done. }
  assert (¬ valid_message
              (Sample.message ["ExponentPushToken[b]"; ""] "second"))
    as Hm.
  { intros [_ Htok]. cbn in Htok.
    apply Forall_cons in Htok as [_ Htok].
    by apply Forall_cons in Htok as [Htok _]. }
  split; [exact Hpre |]. split; [exact Hm |].
  exact (validation_first_offender (Sample.runtime "{}" (Some Sample.bare))
           (Sample.client (Sample.ok200 "{}")) _
           [Sample.message [] "third"] _ Hpre Hm).
Defined.

(** X10.  Tokens that [NewExponentPushToken] returned without an error are
    not empty.  So a batch whose messages each have a recipient, all of
    them such tokens, passes validation and is serialised. *)
Theorem accepted_tokens_validate (rt : Runtime Recipients) (c : PushClient)
    (messages : list PushMessage) :
  Forall (λ m,
            PushMessage.To m ≠ []
            ∧ Forall (λ t, ∃ s, NewExponentPushToken (T := Recipients) s
                                = (t, None))
                (PushMessage.To m)) messages →
  valid_batch messages
  ∧ validate messages 0 = Ok (total_recipients messages)
  ∧ EvMarshal messages ∈ log (PublishMultiple rt c messages).
Proof.
  intros Hall.
  assert (valid_batch messages) as Hv.
  { eapply Forall_impl; [exact Hall |]. intros m [Hne Htok].
    split; [done |]. eapply Forall_impl; [exact Htok |].
    intros t [s Hs]. unfold NewExponentPushToken in Hs.
    destruct (String.prefix "ExponentPushToken" s) eqn:Hp; [|done].
    injection Hs as <-. by destruct s. }
  split; [done |]. split; [by apply validate_valid |].
  rewrite multi_run. cbn zeta. rewrite validate_valid by done.
  repeat case_match; apply list_elem_of_here.
Qed.

(** X10 on one message to one accepted token. *)
Lemma accepted_tokens_validate_witness :
  NewExponentPushToken (T := Recipients) "ExponentPushToken[a]"
  = ("ExponentPushToken[a]", None)
  ∧ validate Sample.batch1 0 = Ok 1.
Proof.
  split; [reflexivity |].
  refine (proj1 (proj2 (accepted_tokens_validate
                          (Sample.runtime "{}" (Some Sample.bare))
                          (Sample.client (Sample.ok200 "{}"))
                          Sample.batch1 _))).
  repeat constructor; [done |]. by exists "ExponentPushToken[a]".
Defined.

(** X11.  [Publish] of the client with several recipients per message
    returns, when it returns receipts, one for each recipient of its
    message and in the recipients' order, receipt [k] referring to the
    message narrowed to recipient [k]; there is at least one. *)
Theorem Publish_receipt_per_recipient (rt : Runtime Recipients)
    (c : PushClient) (message : PushMessage) (out : list PushResponse) :
  result (Publish rt c message) = Ok out →
  length out = length (PushMessage.To message)
  ∧ out ≠ []
  ∧ ∀ k t, PushMessage.To message !! k = Some t →
           ∃ receipt, out !! k = Some receipt
                      ∧ PushResponse.PushMessage receipt
                        = narrowed message t.
Proof.
  unfold Publish. intros Hout.
  apply multi_Ok_inv in Hout as (Hv & resp & r & data & _ & _ & _ & Hlen & ->).
  apply Forall_cons in Hv as [[Hne _] _].
  assert (flattening [message]
          = narrowed message <$> PushMessage.To message) as Hflat.
  { unfold flattening. rewrite bind_cons. cbn. by rewrite app_nil_r. }
  assert (total_recipients [message] = length (PushMessage.To message))
    as Htot.
  { rewrite total_recipients_cons. unfold total_recipients. cbn. lia. }
  rewrite Htot in Hlen. rewrite Hflat. unfold back_referenced.
  assert (length (zip_with PushResponse.set_PushMessage data
                    (narrowed message <$> PushMessage.To message))
          = length (PushMessage.To message)) as Hl.
  { rewrite length_zip_with_l_eq; [done |]. by rewrite length_fmap. }
  split; [done |]. split.
  { intros Hnil. rewrite Hnil in Hl. cbn in Hl.
    symmetry in Hl. by apply length_zero_iff_nil in Hl. }
  intros k t Hk.
  destruct (data !! k) as [d|] eqn:Hd.
  - exists (PushResponse.set_PushMessage d (narrowed message t)).
    split; [|done]. rewrite lookup_zip_with, Hd. cbn.
    by rewrite list_lookup_fmap, Hk.
  - apply lookup_ge_None in Hd. apply lookup_lt_Some in Hk. lia.
Qed.

(** X11 on a message to two recipients. *)
Lemma Publish_receipt_per_recipient_witness :
  let message :=
    Sample.message ["ExponentPushToken[a]"; "ExponentPushToken[b]"] "hi" in
  let r := Response.mk (Some Sample.two_receipts) None in
  let run := Publish (Sample.runtime "{..}" (Some r))
               (Sample.client (Sample.ok200 "{..}")) message in
  ∃ out, result run = Ok out ∧ length out = 2.
Proof.
  cbn zeta. eexists. split; [reflexivity |].
  exact (proj1 (Publish_receipt_per_recipient
                  (Sample.runtime "{..}"
                     (Some (Response.mk (Some Sample.two_receipts) None)))
                  (Sample.client (Sample.ok200 "{..}"))
                  (Sample.message
                     ["ExponentPushToken[a]"; "ExponentPushToken[b]"] "hi")
                  _ eq_refl)).
Defined.

(** X12.  A [PushServerError] that a call returns holds the response the
    gateway gave, with its status in 200-299, and the envelope decoded from
    its body; its [Errors] are the envelope's.  Its message is "Invalid
    server response", unless the envelope has [data] and no [errors] and
    the number of receipts is not the number of recipients. *)
Theorem server_error_holds_answer (rt : Runtime Recipients) (c : PushClient)
    (messages : list PushMessage) (p : PushServerError.t Recipients) :
  result (PublishMultiple rt c messages) = Err (pushServerError p) →
  gateway_replied rt c messages (PushServerError.Response p)
    (PushServerError.ResponseData p)
  ∧ match Response.Errors (PushServerError.ResponseData p),
          Response.Data (PushServerError.ResponseData p) with
    | Some errs, _ =>
        PushServerError.Errors p = Some errs
        ∧ PushServerError.Message p = "Invalid server response"
    | None, None =>
        PushServerError.Errors p = None
        ∧ PushServerError.Message p = "Invalid server response"
    | None, Some data =>
        PushServerError.Errors p = None
        ∧ length data ≠ total_recipients messages
        ∧ PushServerError.Message p
          = mismatch_text (length messages) (length data)
    end.
Proof.
  intros Hres. unfold gateway_replied.
  rewrite multi_run in *. cbn zeta in *.
  destruct (validate messages 0) as [n|e|p'] eqn:Hv; [| |done].
  2:{ destruct (decide (valid_batch messages)) as [Hb|Hb].
      - by rewrite validate_valid in Hv.
      - destruct (validate_invalid messages 0 Hb) as (? & ? & [-> | ->]);
          unfold errors_New in *; cbn in Hres; congruence. }
  apply validate_Ok in Hv as ->.
  destruct (json_Marshal rt messages) as [e|bytes]; [done |].
  destruct (url_Parse rt _); [done |].
  match goal with
  | |- context [httpClient c ?r] => set (req0 := r) in *
  end.
  destruct (httpClient c req0) as [e|resp] eqn:Hc; [done |].
  destruct (checkStatus resp) as [e|] eqn:Hs.
  { unfold checkStatus in Hs. destruct (_ && _); [done |].
    injection Hs as <-. done. }
  destruct (json_Decode rt _) as [e|[r|]] eqn:Hd; [done | |done].
  cbn in Hres.
  assert (∃ req, EvRoundTrip req
                 ∈ [EvMarshal messages;
                    EvNewRequest "POST"
                      (host c +:+ apiURL c +:+ "/push/send");
                    EvRoundTrip req0; EvDecode (http.Body resp)]
                 ∧ httpClient c req = inr resp ∧ is_2xx resp
                 ∧ json_Decode rt (http.Body resp) = inr (Some r)) as Hrep.
  { exists req0. split; [|split; [done |split; [|done]]].
    - do 2 apply list_elem_of_further. apply list_elem_of_here.
    - by apply checkStatus_2xx. }
  destruct (Response.Errors r) as [errs|] eqn:Herr.
  { injection Hres as <-. cbn. by rewrite Herr. }
  destruct (Response.Data r) as [data|] eqn:Hdata.
  2:{ injection Hres as <-. cbn. by rewrite Herr, Hdata. }
  destruct (decide (total_recipients messages ≠ length data)) as [Hne|];
    [|done].
  injection Hres as <-. cbn. rewrite Herr, Hdata. done.
Qed.

(** X12 on the envelope [{"errors": [{"code": "API_ERROR"}]}]. *)
Lemma server_error_holds_answer_witness :
  let p := PushServerError.mk "Invalid server response"
             (Sample.ok200 "{..}") Sample.rejected
             (Some [{["code" := "API_ERROR"]}]) in
  let run := PublishMultiple (Sample.runtime "{..}" (Some Sample.rejected))
               (Sample.client (Sample.ok200 "{..}")) Sample.batch21 in
  result run = Err (pushServerError p)
  ∧ gateway_replied (Sample.runtime "{..}" (Some Sample.rejected))
      (Sample.client (Sample.ok200 "{..}")) Sample.batch21
      (Sample.ok200 "{..}") Sample.rejected.
Proof.
  cbn zeta.
  assert (result
            (PublishMultiple (Sample.runtime "{..}" (Some Sample.rejected))
               (Sample.client (Sample.ok200 "{..}")) Sample.batch21)
          = Err (pushServerError
                   (PushServerError.mk "Invalid server response"
                      (Sample.ok200 "{..}") Sample.rejected
                      (Some [{["code" := "API_ERROR"]}])))) as Hres.
  { reflexivity. }
  split; [exact Hres |].
  exact (proj1 (server_error_holds_answer _ _ _ _ Hres)).
Defined.

End MultiRecipientRun.

(** ** The client with the URL override *)

Section MultiRecipientURLRun.
Import MultiRecipientURL.

(** X13.  The request of the client with the URL override goes to the
    client's [url] when that is not empty, whatever its host and API path
    are, and to host, API path and "/push/send" otherwise.  Method, body
    and headers are as without the override. *)
Theorem url_override_request (rt : Runtime Recipients) (c : PushClient)
    (messages : list PushMessage) (req : http.Request) :
  EvRoundTrip req ∈ log (PublishMultiple rt c messages) →
  http.URL req
  = (if decide (url c = "") then host c +:+ apiURL c +:+ "/push/send"
     else url c)
  ∧ EvNewRequest "POST" (http.URL req) ∈ log (PublishMultiple rt c messages)
  ∧ http.Method req = "POST"
  ∧ json_Marshal rt messages = inr (http.ReqBody req)
  ∧ http.Header req
    = ("Content-Type", "application/json")
      :: (if decide (accessToken c = "") then []
          else [("Authorization", "Bearer " +:+ accessToken c)]).
Proof.
  assert (∀ A (x y : A), (if decide (url c ≠ "") then x else y)
                         = (if decide (url c = "") then y else x)) as Hflip.
  { intros A x y. destruct (decide (url c = "")) as [He|Hne].
    - by rewrite decide_False by (intros H; by apply H).
    - by rewrite decide_True. }
  rewrite url_run. cbn zeta. rewrite !Hflip.
  destruct (validate messages); [intros Hin; by log_inv Hin |].
  destruct (json_Marshal rt messages) as [e|bytes];
    [intros Hin; by log_inv Hin |].
  destruct (url_Parse rt _); [intros Hin; by log_inv Hin |].
  destruct (decide (accessToken c ≠ "")) as [Hne|He];
    [rewrite (decide_False (P := accessToken c = "")) by done
    |apply dec_stable in He;
     rewrite (decide_True (P := accessToken c = "")) by done];
    (destruct (httpClient c _) as [e|resp];
       [|destruct (checkStatus resp)]);
    intros Hin; log_inv Hin; subst req; cbn;
    (split; [done |]);
    (split; [apply list_elem_of_further, list_elem_of_here | done]).
Qed.

(** X13 on a client whose configuration gave a URL. *)
Lemma url_override_request_witness :
  let req :=
    http.mkRequest "POST" "http://localhost:3000/send"
      [("Content-Type", "application/json")] "[..]" in
  EvRoundTrip req
  ∈ log (PublishMultiple (Sample.runtime "{}" (Some Sample.bare))
           (Sample.override_client (Sample.ok200 "{}")) Sample.batch21)
  ∧ http.URL req = "http://localhost:3000/send".
Proof.
  cbn zeta.
  assert (EvRoundTrip
            (http.mkRequest "POST" "http://localhost:3000/send"
               [("Content-Type", "application/json")] "[..]")
          ∈ log (PublishMultiple (Sample.runtime "{}" (Some Sample.bare))
                   (Sample.override_client (Sample.ok200 "{}"))
                   Sample.batch21)) as Hin.
  { lazy. do 2 apply list_elem_of_further. apply list_elem_of_here. }
  split; [exact Hin |].
  exact (proj1 (url_override_request _ _ _ _ Hin)).
Defined.

(** X14.  The client with the URL override pairs receipts with messages,
    not with recipients: when it returns receipts there is one for each
    message, receipt [i] being the [i]-th receipt of the envelope with the
    whole of message [i], all its recipients, as its back-reference.
    [PublishMultiple] never indexes outside [r.Data] or the batch, and
    [Publish] never indexes outside what [PublishMultiple] returned. *)
Theorem url_receipt_per_message (rt : Runtime Recipients) (c : PushClient)
    (messages : list PushMessage) (message : PushMessage) :
  (∀ out,
     result (PublishMultiple rt c messages) = Ok out →
     length out = length messages
     ∧ ∃ resp r data,
         gateway_answered rt c messages resp
         ∧ json_Decode rt (http.Body resp) = inr (Some r)
         ∧ Response.Data r = Some data
         ∧ out = zip_with PushResponse.set_PushMessage data messages
         ∧ ∀ i m, messages !! i = Some m →
                  ∃ d, data !! i = Some d
                       ∧ out !! i = Some (PushResponse.set_PushMessage d m))
  ∧ result (PublishMultiple rt c messages) ≠ Panic IndexOutOfRange
  ∧ result (Publish rt c message) ≠ Panic IndexOutOfRange.
Proof.
  assert (∀ msgs,
            match result (PublishMultiple rt c msgs) with
            | Ok out => length out = length msgs
            | Err _ => True
            | Panic p => p = NilDereference
            end) as Hshape.
  { intros msgs. rewrite url_run. cbn zeta.
    destruct (validate msgs); [done |].
    destruct (json_Marshal rt msgs) as [e|bytes]; [done |].
    destruct (url_Parse rt _); [done |].
    destruct (httpClient c _) as [e|resp]; [done |].
    destruct (checkStatus resp); [done |].
    destruct (json_Decode rt _) as [e|[r|]]; [done | |done].
    cbn. destruct (Response.Errors r); [done |].
    destruct (Response.Data r) as [data|]; [|done].
    destruct (decide (length msgs ≠ length data)) as [|Heq]; [done |].
    apply dec_stable in Heq. by rewrite length_zip_with_r_eq. }
  split; [|split].
  - intros out Hout. split.
    { specialize (Hshape messages). by rewrite Hout in Hshape. }
    unfold gateway_answered. rewrite url_run in *. cbn zeta in *.
    destruct (validate messages); [done |].
    destruct (json_Marshal rt messages) as [e|bytes]; [done |].
    destruct (url_Parse rt _); [done |].
    match goal with
    | |- context [httpClient c ?r] => set (req0 := r) in *
    end.
    destruct (httpClient c req0) as [e|resp] eqn:Hc; [done |].
    destruct (checkStatus resp) eqn:Hs; [done |].
    destruct (json_Decode rt _) as [e|[r|]] eqn:Hd; [done | |done].
    cbn in Hout.
    destruct (Response.Errors r) eqn:Herr; [done |].
    destruct (Response.Data r) as [data|] eqn:Hdata; [|done].
    destruct (decide (length messages ≠ length data)) as [|Heq]; [done |].
    apply dec_stable in Heq. injection Hout as <-.
    exists resp, r, data. split; [|split; [done |split; [done |split]]].
    + exists req0. split; [|done].
      cbn. do 2 apply list_elem_of_further. apply list_elem_of_here.
    + done.
    + intros i m Hi. destruct (data !! i) as [d|] eqn:Hdi.
      * exists d. split; [done |]. by rewrite lookup_zip_with, Hdi, Hi.
      * apply lookup_ge_None in Hdi. apply lookup_lt_Some in Hi. lia.
  - intros Hp. specialize (Hshape messages). by rewrite Hp in Hshape.
  - unfold Publish. rewrite result_bind.
    specialize (Hshape [message]).
    destruct (result (PublishMultiple rt c [message])) as [out|e|p];
      [|done |by subst p].
    by destruct out.
Qed.

End MultiRecipientURLRun.

(** ** The client with one token per message *)

Section SingleTokenRun.
Import SingleToken.

Lemma single_validate_None (messages : list PushMessage) :
  validate messages = None ↔ Forall (λ m, PushMessage.To m ≠ "") messages.
Proof.
  induction messages as [|m messages IH]; cbn.
  - split; [constructor | done].
  - destruct (decide (PushMessage.To m = "")) as [He|Hne].
    + split; [done | by inversion 1].
    + rewrite IH. split; [by constructor | by inversion 1].
Qed.

Lemma single_validate_Some (messages : list PushMessage)
    (e : error ExponentPushToken) :
  validate messages = Some e → e = errors_New "Invalid push token".
Proof.
  induction messages as [|m messages IH]; cbn; [done |].
  destruct (decide (PushMessage.To m = "")); [congruence | done].
Qed.

(** The run of a call, stage by stage. *)
Lemma single_run (rt : Runtime ExponentPushToken) (c : PushClient)
    (messages : list PushMessage) :
  let url := host c +:+ apiURL c +:+ "/push/send" in
  let request bytes :=
    http.mkRequest "POST" url [("Content-Type", "application/json")] bytes in
  PublishMultiple rt c messages =
  match validate messages with
  | Some e => ([], Err e)
  | None =>
      match json_Marshal rt messages with
      | inl e => ([EvMarshal messages], Err (jsonError e))
      | inr bytes =>
          match url_Parse rt url with
          | Some e =>
              ([EvMarshal messages; EvNewRequest "POST" url],
               Err (httpError e))
          | None =>
              match httpClient c (request bytes) with
              | inl e =>
                  ([EvMarshal messages; EvNewRequest "POST" url;
                    EvRoundTrip (request bytes)], Err (httpError e))
              | inr resp =>
                  match checkStatus resp with
                  | Some e =>
                      ([EvMarshal messages; EvNewRequest "POST" url;
                        EvRoundTrip (request bytes)], Err e)
                  | None =>
                      ([EvMarshal messages; EvNewRequest "POST" url;
                        EvRoundTrip (request bytes);
                        EvDecode (http.Body resp)],
                       match json_Decode rt (http.Body resp) with
                       | inl e => Err (jsonError e)
                       | inr None => Panic NilDereference
                       | inr (Some r) =>
                           match Response.Errors r, Response.Data r with
                           | Some errs, _ =>
                               Err (NewPushServerError
                                      "Invalid server response" resp r
                                      (Some errs))
                           | None, None =>
                               Err (NewPushServerError
                                      "Invalid server response" resp r None)
                           | None, Some data =>
                               if decide (length messages ≠ length data)
                               then Err (NewPushServerError
                                           (mismatch_text (length messages)
                                              (length data)) resp r None)
                               else Ok (zip_with PushResponse.set_PushMessage
                                          data messages)
                           end
                       end)
                  end
              end
          end
      end
  end.
Proof.
  cbn zeta. unfold PublishMultiple, publishInternal, Post.
  destruct (validate messages); [done |].
  cbn zeta. rewrite Marshal_run.
  destruct (json_Marshal rt messages) as [e|bytes]; [done |].
  cbn [mbind M_bind]. rewrite NewRequest_run.
  destruct (url_Parse rt _) as [e|]; [done |].
  cbn [mbind M_bind]. rewrite Do_run. cbn [http.Method http.URL http.ReqBody].
  destruct (httpClient c _) as [e|resp]; [done |].
  cbn [mbind M_bind]. destruct (checkStatus resp); [done |].
  rewrite Decode_run.
  destruct (json_Decode rt _) as [e|[r|]]; [done | |done].
  cbn [mbind M_bind deref mret M_ret].
  destruct (Response.Errors r); [done |].
  destruct (Response.Data r) as [data|]; [|done].
  destruct (decide (length messages ≠ length data)) as [|Heq]; [done |].
  apply dec_stable in Heq.
  pose proof (single_annotate_run data messages [] [] eq_refl
                (eq_sym Heq)) as Hrun.
  cbn in Hrun. by rewrite Hrun.
Qed.

(** X15.  The client with one token per message validates tokens only: a
    batch goes on to serialisation exactly when no message has the empty
    token, the empty batch included, and otherwise the call returns
    "Invalid push token" without having made any call. *)
Theorem single_validation_exact (rt : Runtime ExponentPushToken)
    (c : PushClient) (messages : list PushMessage) :
  (Forall (λ m, PushMessage.To m ≠ "") messages
   ↔ ∃ calls, log (PublishMultiple rt c messages)
              = EvMarshal messages :: calls)
  ∧ (¬ Forall (λ m, PushMessage.To m ≠ "") messages
     ↔ PublishMultiple rt c messages
       = ([], Err (errors_New "Invalid push token"))).
Proof.
  rewrite single_run. cbn zeta.
  destruct (validate messages) as [e|] eqn:Hv.
  - apply single_validate_Some in Hv as He. subst e.
    assert (¬ Forall (λ m, PushMessage.To m ≠ "") messages) as Hn.
    { intros Hall. apply single_validate_None in Hall. congruence. }
    split; split; try done.
    intros [calls Hc]. done.
  - apply single_validate_None in Hv.
    split; split.
    + intros _. repeat case_match; by eexists.
    + done.
    + done.
    + intros Hrun. exfalso. revert Hrun. repeat case_match; done.
Qed.

(** X16.  What the client with one token per message sends and returns:
    its request is a POST to host, API path and "/push/send" with the one
    header [Content-Type] and the serialised batch as body; the receipts it
    returns are those of the decoded envelope, as many as messages, receipt
    [i] with message [i] as its back-reference. *)
Theorem single_request_and_receipts (rt : Runtime ExponentPushToken)
    (c : PushClient) (messages : list PushMessage) :
  (∀ req,
     EvRoundTrip req ∈ log (PublishMultiple rt c messages) →
     ∃ bytes,
       json_Marshal rt messages = inr bytes
       ∧ req = http.mkRequest "POST" (host c +:+ apiURL c +:+ "/push/send")
                 [("Content-Type", "application/json")] bytes)
  ∧ (∀ out,
       result (PublishMultiple rt c messages) = Ok out →
       ∃ req resp r data,
         EvRoundTrip req ∈ log (PublishMultiple rt c messages)
         ∧ httpClient c req = inr resp ∧ is_2xx resp
         ∧ json_Decode rt (http.Body resp) = inr (Some r)
         ∧ Response.Errors r = None
         ∧ Response.Data r = Some data
         ∧ length data = length messages
         ∧ out = zip_with PushResponse.set_PushMessage data messages).
Proof.
  rewrite single_run. cbn zeta. split.
  - intros req Hin.
    destruct (validate messages); [by log_inv Hin |].
    destruct (json_Marshal rt messages) as [e|bytes]; [by log_inv Hin |].
    destruct (url_Parse rt _); [by log_inv Hin |].
    exists bytes. split; [done |].
    destruct (httpClient c _) as [e|resp]; [by log_inv Hin |].
    destruct (checkStatus resp); by log_inv Hin.
  - intros out Hout.
    destruct (validate messages); [done |].
    destruct (json_Marshal rt messages) as [e|bytes]; [done |].
    destruct (url_Parse rt _); [done |].
    match goal with
    | |- context [httpClient c ?r] => set (req0 := r) in *
    end.
    destruct (httpClient c req0) as [e|resp] eqn:Hc; [done |].
    destruct (checkStatus resp) eqn:Hs; [done |].
    destruct (json_Decode rt _) as [e|[r|]] eqn:Hd; [done | |done].
    cbn in Hout.
    destruct (Response.Errors r) eqn:Herr; [done |].
    destruct (Response.Data r) as [data|] eqn:Hdata; [|done].
    destruct (decide (length messages ≠ length data)) as [|Heq]; [done |].
    apply dec_stable in Heq. injection Hout as <-.
    exists req0, resp, r, data. repeat split; try done.
    + cbn. do 2 apply list_elem_of_further. apply list_elem_of_here.
    + unfold checkStatus in Hs. unfold is_2xx.
      destruct (bool_decide (200 ≤ http.StatusCode resp)%Z) eqn:H1; [|done].
      by apply bool_decide_eq_true in H1.
    + unfold checkStatus in Hs. unfold is_2xx.
      destruct (bool_decide (200 ≤ http.StatusCode resp)%Z); [|done].
      destruct (bool_decide (http.StatusCode resp ≤ 299)%Z) eqn:H2; [|done].
      by apply bool_decide_eq_true in H2.
Qed.

End SingleTokenRun.

(** ** The first client *)

Section FirstClientRun.
Import FirstClient.

Lemma first_annotate_run (messages : list PushMessage)
    (data : list PushResponse) (idx : list nat) :
  Forall (λ i, i < length data ∧ i < length messages) idx →
  annotate messages data idx = ([], Ok data).
Proof.
  induction 1 as [|i idx [Hd Hm] _ IH]; [done |].
  cbn [annotate]. unfold index.
  apply lookup_lt_is_Some in Hd as [d ->].
  apply lookup_lt_is_Some in Hm as [m ->].
  cbn [mbind M_bind mret M_ret]. by rewrite IH.
Qed.

(** X17.  The first client returns the receipts exactly as the decoder
    built them: its loop assigns the message to a copy of each receipt, so
    no receipt that is returned has a back-reference set by the call.  It
    returns them only for a 2xx answer whose body was read and decoded to
    an envelope without [errors] and with as many receipts as messages. *)
Theorem first_client_no_back_reference (rt : Runtime ExponentPushToken)
    (DefaultClient : Client) (ioutil_ReadAll : string → string + string)
    (c : PushClient) (messages : list PushMessage) :
  ∀ out,
    result (PublishMultiple rt DefaultClient ioutil_ReadAll c messages)
    = Ok out →
    ∃ req resp body r,
      EvRoundTrip req
      ∈ log (PublishMultiple rt DefaultClient ioutil_ReadAll c messages)
      ∧ DefaultClient req = inr resp
      ∧ is_2xx resp
      ∧ ioutil_ReadAll (http.Body resp) = inr body
      ∧ json_Decode rt body = inr (Some r)
      ∧ Response.Errors r = None
      ∧ Response.Data r = Some out
      ∧ length out = length messages.
Proof.
  intros out. unfold PublishMultiple, publishInternal, Post.
  destruct (validate messages); [done |].
  cbn zeta. rewrite Marshal_run.
  destruct (json_Marshal rt messages) as [e|bytes]; [done |].
  cbn [mbind M_bind]. rewrite NewRequest_run.
  destruct (url_Parse rt _) as [e|]; [done |].
  cbn [mbind M_bind]. rewrite Do_run. cbn [http.Method http.URL http.ReqBody].
  match goal with
  | |- context [DefaultClient ?r] => set (req0 := r) in *
  end.
  destruct (DefaultClient req0) as [e|resp] eqn:Hc; [done |].
  cbn [mbind M_bind]. destruct (checkStatus resp) eqn:Hs; [done |].
  destruct (ioutil_ReadAll (http.Body resp)) as [e|body] eqn:Hread; [done |].
  rewrite Decode_run.
  destruct (json_Decode rt body) as [e|[r|]] eqn:Hd; [done | |done].
  cbn [mbind M_bind deref mret M_ret].
  destruct (Response.Errors r) eqn:Herr; [done |].
  destruct (Response.Data r) as [data|] eqn:Hdata; [|done].
  destruct (decide (length messages ≠ length data)) as [|Heq]; [done |].
  apply dec_stable in Heq.
  rewrite first_annotate_run.
  2:{ apply Forall_forall. intros i Hi%elem_of_seq. lia. }
  cbn. intros [= <-].
  exists req0, resp, body, r. repeat split; try done.
  - do 2 apply list_elem_of_further. apply list_elem_of_here.
  - unfold checkStatus in Hs.
    destruct (bool_decide (200 ≤ http.StatusCode resp)%Z) eqn:H1; [|done].
    by apply bool_decide_eq_true in H1.
  - unfold checkStatus in Hs.
    destruct (bool_decide (200 ≤ http.StatusCode resp)%Z); [|done].
    destruct (bool_decide (http.StatusCode resp ≤ 299)%Z) eqn:H2; [|done].
    by apply bool_decide_eq_true in H2.
Qed.

(** X17 on one message: the receipt comes back with the zero message the
    decoder left in it. *)
Lemma first_client_no_back_reference_witness :
  let d := PushResponse.mk (Sample.message "" "") "ok" "" None in
  let r := Response.mk (Some [d]) None in
  let run :=
    PublishMultiple (Sample.runtime "one" (Some r))
      (Sample.transport (Sample.ok200 "one")) inr (NewPushClient None)
      [Sample.message "ExponentPushToken[a]" "only"] in
  result run = Ok [d]
  ∧ ∃ r', json_Decode (Sample.runtime "one" (Some r)) "one" = inr (Some r')
          ∧ Response.Data r' = Some [d].
Proof.
  cbn zeta. split; [reflexivity |].
  destruct (first_client_no_back_reference
              (Sample.runtime "one"
                 (Some (Response.mk
                          (Some [PushResponse.mk (Sample.message "" "")
                                   "ok" "" None]) None)))
              (Sample.transport (Sample.ok200 "one")) inr
              (NewPushClient None)
              [Sample.message "ExponentPushToken[a]" "only"] _ eq_refl)
    as (req & resp & body & r' & _ & Hresp & _ & Hread & Hd & _ & Hdata & _).
  exists r'. split; [|done].
  injection Hresp as <-. cbn in Hread. injection Hread as <-. exact Hd.
Defined.

End FirstClientRun.

(** ** Building a client *)

(** X18.  [NewPushClient], in each of the four clients: a client never has
    an empty host or API path; a nil configuration and one with every
    field left at its zero value give the same client, the one with the
    default host and API path; and the configuration made of the fields of
    a client gives that client back. *)
Theorem NewPushClient_fallbacks (d : Client) :
  (∀ config,
     let c := MultiRecipient.NewPushClient d config in
     MultiRecipient.host c ≠ "" ∧ MultiRecipient.apiURL c ≠ ""
     ∧ MultiRecipient.NewPushClient d None
       = MultiRecipient.NewPushClient d
           (Some (MultiRecipient.mkClientConfig "" "" "" None))
     ∧ ∀ d',
         MultiRecipient.NewPushClient d'
           (Some (MultiRecipient.mkClientConfig (MultiRecipient.host c)
                    (MultiRecipient.apiURL c) (MultiRecipient.accessToken c)
                    (Some (MultiRecipient.httpClient c))))
         = c)
  ∧ (∀ config,
       let c := MultiRecipientURL.NewPushClient d config in
       MultiRecipientURL.host c ≠ "" ∧ MultiRecipientURL.apiURL c ≠ ""
       ∧ MultiRecipientURL.NewPushClient d None
         = MultiRecipientURL.NewPushClient d
             (Some (MultiRecipientURL.mkClientConfig "" "" "" None ""))
       ∧ MultiRecipientURL.url (MultiRecipientURL.NewPushClient d None) = ""
       ∧ ∀ d',
           MultiRecipientURL.NewPushClient d'
             (Some (MultiRecipientURL.mkClientConfig
                      (MultiRecipientURL.host c) (MultiRecipientURL.apiURL c)
                      (MultiRecipientURL.accessToken c)
                      (Some (MultiRecipientURL.httpClient c))
                      (MultiRecipientURL.url c)))
           = c)
  ∧ (∀ config,
       let c := SingleToken.NewPushClient d config in
       SingleToken.host c ≠ "" ∧ SingleToken.apiURL c ≠ ""
       ∧ SingleToken.NewPushClient d None
         = SingleToken.NewPushClient d
             (Some (SingleToken.mkClientConfig "" "" None))
       ∧ ∀ d',
           SingleToken.NewPushClient d'
             (Some (SingleToken.mkClientConfig (SingleToken.host c)
                      (SingleToken.apiURL c)
                      (Some (SingleToken.httpClient c))))
           = c)
  ∧ (∀ config,
       let c := FirstClient.NewPushClient config in
       FirstClient.host c ≠ "" ∧ FirstClient.apiURL c ≠ ""
       ∧ FirstClient.NewPushClient None
         = FirstClient.NewPushClient
             (Some (FirstClient.mkClientConfig "" ""))
       ∧ FirstClient.NewPushClient
           (Some (FirstClient.mkClientConfig (FirstClient.host c)
                    (FirstClient.apiURL c)))
         = c).
Proof.
  split; [|split; [|split]].
  - intros [[h a t cl]|]; cbn.
    + unfold MultiRecipient.NewPushClient. cbn.
      repeat case_decide; destruct cl; cbn; repeat case_decide;
        repeat split; try done; try (intros ?; done).
    + unfold MultiRecipient.NewPushClient. cbn.
      repeat split; done.
  - intros [[h a t cl u]|]; cbn.
    + unfold MultiRecipientURL.NewPushClient. cbn.
      repeat case_decide; destruct cl; cbn; repeat case_decide;
        repeat split; try done; try (intros ?; done).
    + unfold MultiRecipientURL.NewPushClient. cbn.
      repeat split; done.
  - intros [[h a cl]|]; cbn.
    + unfold SingleToken.NewPushClient. cbn.
      repeat case_decide; destruct cl; cbn; repeat case_decide;
        repeat split; try done; try (intros ?; done).
    + unfold SingleToken.NewPushClient. cbn.
      repeat split; done.
  - intros [[h a]|]; cbn.
    + unfold FirstClient.NewPushClient. cbn.
      repeat case_decide; cbn; repeat case_decide;
        repeat split; try done.
    + unfold FirstClient.NewPushClient. cbn.
      repeat split; done.
Qed.
